(** * docker_plugin: reconciliation of a Docker engine plugin

    Shallow embedding of [library/docker_plugin.py] (an Ansible module) and
    the properties of its option codec, of its difference computation and of
    the reconciliation performed by [DockerPluginManager].

    Python values are modelled as follows.
    - [str] is [string]; a plugin option value is [value := option string],
      where [None] is Python's [None].
    - a [dict] is an association list in insertion order without repeated
      keys ([dict_set] overwrites in place or appends, as a Python dict
      does); [prepare_options] depends on that order.
    - the methods of [DockerPluginManager] run in a state monad over the
      fields of the manager; an exception nobody catches is [Uncaught] (in
      the pure functions, [Raise]), [client.fail(msg)], which ends the
      process through [fail_json], is [Fail msg].
    - the Docker engine reached through docker-py is a [Gateway]: a record
      of operations over an abstract engine state, each of which may answer
      with an [APIError]; [Engine] is a reference engine for closed runs.
    - the history of a run ([trace]) records every gateway call and, as
      ghost events, every read of the [enabled] and [settings] attributes
      of [self.existing_plugin]. *)

From Stdlib Require Import String Ascii List Bool.
Import ListNotations.
Open Scope string_scope.

Set Implicit Arguments.

(** ** Python values *)

Module Py.

(** The exceptions the module can let escape. *)
Inductive exn : Type :=
| ValueError      (* "not enough values to unpack" *)
| AttributeError  (* attribute access on None *)
| KeyError        (* missing key of a dict *).

Inductive result (A : Type) : Type :=
| Ok (a : A)
| Raise (e : exn).
Arguments Ok {A} a.
Arguments Raise {A} e.

(** A plugin option value: a string, or Python's [None]. *)
Definition value : Type := option string.

Definition value_eqb (a b : value) : bool :=
  match a, b with
  | None, None => true
  | Some x, Some y => String.eqb x y
  | _, _ => false
  end.

(** [dict]: association list, insertion ordered. *)
Definition dict (V : Type) : Type := list (string * V).

Definition keys {V} (d : dict V) : list string := map fst d.

Fixpoint dict_lookup {V} (d : dict V) (k : string) : option V :=
  match d with
  | [] => None
  | (k', v) :: r => if String.eqb k' k then Some v else dict_lookup r k
  end.

(** [d[k] = v] *)
Fixpoint dict_set {V} (k : string) (v : V) (d : dict V) : dict V :=
  match d with
  | [] => [(k, v)]
  | (k', v') :: r =>
      if String.eqb k' k then (k', v) :: r else (k', v') :: dict_set k v r
  end.

(** [dict(pairs)] for pairs of strings: later pairs overwrite. *)
Definition dict_of_pairs (pairs : list (string * string))
  : dict (option string) :=
  fold_left (fun d kv => dict_set (fst kv) (Some (snd kv)) d) pairs [].

(** [d.get(k)] on a dict of option values: [None] when the key is missing. *)
Definition dict_get (d : dict value) (k : string) : value :=
  match dict_lookup d k with
  | Some v => v
  | None => None
  end.

(** Truthiness of a dict or list: non-empty. *)
Definition truthy {A} (l : list A) : bool :=
  match l with [] => false | _ :: _ => true end.

(** ['%s' % v] for an optional string. *)
Definition str_of (v : value) : string :=
  match v with
  | Some s => s
  | None => "None"
  end.

(** [x.split('=', 1)]: the whole string when it holds no ['='], otherwise
    the text before the first ['='] and the text after it. *)
Fixpoint split_eq_1 (x : string) : list string :=
  match x with
  | EmptyString => [EmptyString]
  | String c r =>
      if Ascii.eqb c "="%char then [EmptyString; r]
      else match split_eq_1 r with
           | [] => []
           | h :: t => String c h :: t
           end
  end.

(** [k, v = l]: tuple unpacking of a list into two names. *)
Definition unpack2 (l : list string) : result (string * string) :=
  match l with
  | [k; v] => Ok (k, v)
  | _ => Raise ValueError
  end.

(** Does the string hold the character? *)
Fixpoint has_char (c : ascii) (s : string) : bool :=
  match s with
  | EmptyString => false
  | String c' r => Ascii.eqb c' c || has_char c r
  end.


End Py.

Import Py.

(** ** Option codec *)

(** [prepare_options(options)]:
    [['%s=%s' % (k, v if v is not None else "") for k, v in options.items()]
     if options else []]. *)
Definition prepare_options (options : option (dict value)) : list string :=
  match options with
  | Some ((_ :: _) as d) =>
      map (fun kv => fst kv ++ "=" ++
                     match snd kv with Some v => v | None => "" end) d
  | _ => []
  end.

(** [dict((k, v) for k, v in map(lambda x: x.split('=', 1), options_list))]:
    the entries are consumed in order, each one split and unpacked; the
    first entry that does not unpack into two names raises. *)
Fixpoint dict_of_entries (l : list string) (acc : dict value)
  : result (dict value) :=
  match l with
  | [] => Ok acc
  | x :: r =>
      match unpack2 (split_eq_1 x) with
      | Ok (k, v) => dict_of_entries r (dict_set k (Some v) acc)
      | Raise e => Raise e
      end
  end.

(** [parse_options(options_list)]: [... if options_list else {}]. *)
Definition parse_options (options_list : option (list string))
  : result (dict value) :=
  match options_list with
  | Some ((_ :: _) as l) => dict_of_entries l []
  | _ => Ok []
  end.

(** [wrap_error(prefix, error)]: [". ".join([str(prefix), str(error_message)])].
    The callers pass either a string or a one-element tuple holding a string
    (a trailing comma inside the parentheses of [prefix=(...)]). *)
Inductive prefix_arg : Type :=
| PrefixStr (s : string)
| PrefixTuple1 (s : string).

(** ** Difference tracker *)

Module DifferenceTracker.

(** The values a difference record can hold in this module: the existence
    flag, one option value, or a whole option mapping. *)
Inductive pyval : Type :=
| PNone
| PBool (b : bool)
| PStr (s : string)
| PDict (d : dict value).

Definition of_value (v : value) : pyval :=
  match v with
  | Some s => PStr s
  | None => PNone
  end.

Record difference : Type := {
  name : string;
  parameter : pyval;
  active : pyval
}.

(** Modelled from the spec: [DifferenceTracker] is imported from the
    docker module utilities of the Ansible collection, which are not part
    of the repository.  Section 4.2: [add] appends a record without
    de-duplication, [empty] is true iff no record was added, [merge]
    appends the other tracker's records in order, [get_before_after]
    renders [before[key] = active], [after[key] = desired] with the last
    write winning, [get_legacy_docker_diffs] returns the records
    unmodified. *)
Definition t : Type := list difference.

Definition new : t := [].

Definition add (n : string) (p a : pyval) (d : t) : t :=
  (d ++ [{| name := n; parameter := p; active := a |}])%list.

Definition empty (d : t) : bool :=
  match d with [] => true | _ :: _ => false end.

Definition merge (d other : t) : t := (d ++ other)%list.

Definition get_before_after (d : t) : dict pyval * dict pyval :=
  fold_left
    (fun ba r => (dict_set (name r) (active r) (fst ba),
                  dict_set (name r) (parameter r) (snd ba)))
    d ([], []).

Definition get_legacy_docker_diffs (d : t) : list difference := d.

End DifferenceTracker.


(** ** Plugin gateway *)

(** What the module reads of a docker-py [Plugin] object. *)
Record plugin : Type := {
  plugin_name : string;
  enabled : bool;
  settings_Env : list string
}.

Inductive response (A : Type) : Type :=
| Done (a : A)
| APIError (text : string).
Arguments Done {A} a.
Arguments APIError {A} text.

Inductive lookup_response : Type :=
| Found (p : plugin)
| NotFound
| LookupAPIError (text : string).

(** The operations of docker-py the module calls, over an engine state [E].
    [enable], [disable] and [configure] answer with the attributes the
    [Plugin] object holds after the call. *)
Record Gateway (E : Type) : Type := {
  plugins_get : string -> E -> lookup_response * E;
  plugins_install : value -> string -> E -> response plugin * E;
  plugin_remove : plugin -> E -> response unit * E;
  plugin_enable : plugin -> nat -> E -> response plugin * E;
  plugin_disable : plugin -> E -> response plugin * E;
  plugin_configure : plugin -> list string -> E -> response plugin * E
}.

(** A call made to the gateway. *)
Inductive call : Type :=
| Get (alias : string)
| Install (name : value) (alias : string)
| Remove (p : plugin)
| Enable (p : plugin) (timeout : nat)
| Disable (p : plugin)
| Configure (p : plugin) (options : list string).

Inductive attribute : Type :=
| AttrEnabled
| AttrSettings.

(** The run's history: each gateway call with the text of the [APIError] it
    raised, if any, and (as ghost events) each read of the [enabled] or
    [settings] attribute of [self.existing_plugin]. *)
Inductive event : Type :=
| Call (c : call) (error : option string)
| Inspect (a : attribute).

Definition is_lookup (c : call) : bool :=
  match c with Get _ => true | _ => false end.

(** A call other than a lookup. *)
Definition mutating (ev : event) : bool :=
  match ev with
  | Call c _ => negb (is_lookup c)
  | Inspect _ => false
  end.


(** ** Task parameters *)

Inductive state_choice : Type :=
| state_present
| state_absent
| state_enabled
| state_disabled.

Definition state_eqb (a b : state_choice) : bool :=
  match a, b with
  | state_present, state_present | state_absent, state_absent
  | state_enabled, state_enabled | state_disabled, state_disabled => true
  | _, _ => false
  end.

Record TaskParameters : Type := {
  name : value;
  alias : string;
  plugin_options : option (dict value);
  state : state_choice;
  debug : bool
}.

(** What the manager reads of the Ansible client: the task parameters,
    [client.check_mode] and [client.module._diff]. *)
Record AnsibleDockerClient : Type := {
  parameters : TaskParameters;
  check_mode : bool;
  diff : bool
}.

(** [self.results]: ['changed'], ['actions'] (absent once popped) and
    ['diff'] (absent until set). *)
Inductive diff_value : Type :=
| LegacyDiff (l : list DifferenceTracker.difference)
| BeforeAfter (d : option (dict DifferenceTracker.pyval *
                         dict DifferenceTracker.pyval)).

Record results_t : Type := {
  changed : bool;
  actions : option (list string);
  results_diff : option diff_value
}.

(** ** The manager *)

Inductive outcome (A : Type) : Type :=
| Return (a : A)
| Fail (msg : string)        (* client.fail(msg) *)
| Uncaught (e : exn)         (* a Python exception nobody catches *).
Arguments Return {A} a.
Arguments Fail {A} msg.
Arguments Uncaught {A} e.

Section Manager.

Variable E : Type.
Variable gw : Gateway E.
(** Python's [repr] of a [str]. *)
Variable repr : string -> string.
Variable client : AnsibleDockerClient.

Let prm := parameters client.

(** The fields of [DockerPluginManager], with the engine behind
    [self.dclient] and the history of the run. [diff_result] is [None] while
    the dict is empty, and holds [before] and [after] once they are set. *)
Record manager : Type := {
  existing_plugin : option plugin;
  results : results_t;
  diff_tracker : DifferenceTracker.t;
  diff_result : option (dict DifferenceTracker.pyval *
                        dict DifferenceTracker.pyval);
  engine : E;
  trace : list event
}.

Definition M (A : Type) : Type := manager -> outcome A * manager.

Definition ret {A} (a : A) : M A := fun m => (Return a, m).

Definition bind {A B} (c : M A) (f : A -> M B) : M B :=
  fun m =>
    match c m with
    | (Return a, m') => f a m'
    | (Fail msg, m') => (Fail msg, m')
    | (Uncaught e, m') => (Uncaught e, m')
    end.

Notation "x <- c ;; k" := (bind c (fun x => k))
  (at level 61, c at next level, right associativity).
Notation "c ;; k" := (bind c (fun _ => k))
  (at level 61, right associativity).

Definition fail {A} (msg : string) : M A := fun m => (Fail msg, m).
Definition raise {A} (e : exn) : M A := fun m => (Uncaught e, m).
Definition get : M manager := fun m => (Return m, m).
Definition when (b : bool) (c : M unit) : M unit :=
  if b then c else ret tt.

Definition lift {A} (r : result A) : M A :=
  match r with
  | Ok a => ret a
  | Raise e => raise e
  end.

Definition log (ev : event) : M unit :=
  fun m =>
    (Return tt,
     {| existing_plugin := existing_plugin m; results := results m;
        diff_tracker := diff_tracker m; diff_result := diff_result m;
        engine := engine m; trace := (trace m ++ [ev])%list |}).

Definition set_existing_plugin (p : option plugin) : M unit :=
  fun m =>
    (Return tt,
     {| existing_plugin := p; results := results m;
        diff_tracker := diff_tracker m; diff_result := diff_result m;
        engine := engine m; trace := trace m |}).

Definition set_results (r : results_t) : M unit :=
  fun m =>
    (Return tt,
     {| existing_plugin := existing_plugin m; results := r;
        diff_tracker := diff_tracker m; diff_result := diff_result m;
        engine := engine m; trace := trace m |}).

Definition set_diff_tracker (d : DifferenceTracker.t) : M unit :=
  fun m =>
    (Return tt,
     {| existing_plugin := existing_plugin m; results := results m;
        diff_tracker := d; diff_result := diff_result m;
        engine := engine m; trace := trace m |}).

Definition set_diff_result
  (d : option (dict DifferenceTracker.pyval * dict DifferenceTracker.pyval))
  : M unit :=
  fun m =>
    (Return tt,
     {| existing_plugin := existing_plugin m; results := results m;
        diff_tracker := diff_tracker m; diff_result := d;
        engine := engine m; trace := trace m |}).

Definition error_of {A} (r : response A) : option string :=
  match r with
  | Done _ => None
  | APIError text => Some text
  end.

(** One call of a docker-py operation: the engine moves on and the call is
    recorded with its failure, if any. *)
Definition call_gateway {A} (c : call) (op : E -> response A * E)
  : M (response A) :=
  fun m =>
    let r := op (engine m) in
    (Return (fst r),
     {| existing_plugin := existing_plugin m; results := results m;
        diff_tracker := diff_tracker m; diff_result := diff_result m;
        engine := snd r;
        trace := (trace m ++ [Call c (error_of (fst r))])%list |}).

(** [str(prefix)] *)
Definition str_prefix (p : prefix_arg) : string :=
  match p with
  | PrefixStr s => s
  | PrefixTuple1 s => "(" ++ repr s ++ ",)"
  end.

Definition wrap_error (prefix : prefix_arg) (error : string) : string :=
  str_prefix prefix ++ ". " ++ error.

(** [self.results['actions'].append(s)] *)
Definition append_action (s : string) : M unit :=
  m <- get ;;
  match actions (results m) with
  | Some l =>
      set_results {| changed := changed (results m);
                     actions := Some (l ++ [s])%list;
                     results_diff := results_diff (results m) |}
  | None => raise KeyError
  end.

(** [self.results['changed'] = True] *)
Definition set_changed : M unit :=
  m <- get ;;
  set_results {| changed := true;
                 actions := actions (results m);
                 results_diff := results_diff (results m) |}.

(** [self.results['diff'] = d] *)
Definition set_results_diff (d : diff_value) : M unit :=
  m <- get ;;
  set_results {| changed := changed (results m);
                 actions := actions (results m);
                 results_diff := Some d |}.

(** [self.results.pop('actions')] *)
Definition pop_actions : M unit :=
  m <- get ;;
  match actions (results m) with
  | Some _ =>
      set_results {| changed := changed (results m);
                     actions := None;
                     results_diff := results_diff (results m) |}
  | None => raise KeyError
  end.

(** [self.existing_plugin.<attr>]: an [AttributeError] on [None]. *)
Definition inspect (a : attribute) : M plugin :=
  log (Inspect a) ;;
  m <- get ;;
  match existing_plugin m with
  | Some p => ret p
  | None => raise AttributeError
  end.

(** [get_existing_plugin] (lines 172-184): [NotFound] is [None], an
    [APIError] fails the run. *)
Definition get_existing_plugin : M (option plugin) :=
  fun m =>
    let r := plugins_get gw (alias prm) (engine m) in
    let m' err :=
      {| existing_plugin := existing_plugin m; results := results m;
         diff_tracker := diff_tracker m; diff_result := diff_result m;
         engine := snd r;
         trace := (trace m ++ [Call (Get (alias prm)) err])%list |} in
    match fst r with
    | Found p => (Return (Some p), m' None)
    | NotFound => (Return None, m' None)
    | LookupAPIError error =>
        (Fail (wrap_error (PrefixStr "Failed to query existing plugins")
                          error),
         m' (Some error))
    end.

(** The loop of [has_different_config] over the desired options. *)
Definition option_differences (desired existing_options : dict value)
  : DifferenceTracker.t :=
  fold_left
    (fun differences kv =>
       let active_value := dict_get existing_options (fst kv) in
       if negb (value_eqb active_value (snd kv))
       then DifferenceTracker.add ("plugin_options." ++ fst kv)
              (DifferenceTracker.of_value (snd kv))
              (DifferenceTracker.of_value active_value) differences
       else differences)
    desired DifferenceTracker.new.

(** [has_different_config] (lines 186-202). *)
Definition has_different_config : M DifferenceTracker.t :=
  match plugin_options prm with
  | Some ((_ :: _) as desired) =>
      p <- inspect AttrSettings ;;
      existing_options <- lift (parse_options (Some (settings_Env p))) ;;
      if negb (truthy existing_options)
      then ret (DifferenceTracker.add "plugin_options"
                  (DifferenceTracker.PDict desired)
                  (DifferenceTracker.PDict existing_options)
                  DifferenceTracker.new)
      else ret (option_differences desired existing_options)
  | _ => ret DifferenceTracker.new
  end.

(** [install_plugin] (lines 204-218). *)
Definition install_plugin : M unit :=
  m <- get ;;
  match existing_plugin m with
  | Some _ => ret tt
  | None =>
      when (negb (check_mode client))
        (r <- call_gateway (Install (name prm) (alias prm))
               (plugins_install gw (name prm) (alias prm)) ;;
         match r with
         | Done p => set_existing_plugin (Some p)
         | APIError error =>
             fail (wrap_error
                     (PrefixStr ("Failed to install local docker logging plugin "
                                 ++ alias prm ++ " from " ++ str_of (name prm)))
                     error)
         end) ;;
      append_action ("Installed local docker logging plugin "
                     ++ alias prm ++ " from " ++ str_of (name prm) ++ ".") ;;
      set_changed
  end.

(** [remove_plugin] (lines 220-234). *)
Definition remove_plugin : M unit :=
  m <- get ;;
  match existing_plugin m with
  | Some p =>
      when (negb (check_mode client))
        (r <- call_gateway (Remove p) (plugin_remove gw p) ;;
         match r with
         | Done _ => ret tt
         | APIError error =>
             fail (wrap_error
                     (PrefixStr ("Failed to remove local docker logging plugin "
                                 ++ alias prm))
                     error)
         end) ;;
      append_action ("Removed local docker logging plugin "
                     ++ alias prm ++ ".") ;;
      set_changed
  | None => ret tt
  end.

(** [enable_plugin] (lines 236-254); the timeout passed to [enable] is 1. *)
Definition enable_plugin (main_action : bool) : M unit :=
  p <- get_existing_plugin ;;
  set_existing_plugin p ;;
  p <- inspect AttrEnabled ;;
  when (negb (enabled p))
    (when (negb (check_mode client))
       (r <- call_gateway (Enable p 1) (plugin_enable gw p 1) ;;
        match r with
        | Done p' => set_existing_plugin (Some p')
        | APIError error =>
            fail (wrap_error
                    (PrefixTuple1 ("Failed to enable local docker logging plugin "
                                   ++ alias prm ++ ". "))
                    error)
        end) ;;
     when main_action
       (append_action ("Enabled local docker logging plugin "
                       ++ alias prm ++ ".") ;;
        set_changed)).

(** [disable_plugin] (lines 256-273). *)
Definition disable_plugin (main_action : bool) : M unit :=
  m <- get ;;
  match existing_plugin m with
  | Some _ =>
      p <- inspect AttrEnabled ;;
      when (enabled p)
        (when (negb (check_mode client))
           (r <- call_gateway (Disable p) (plugin_disable gw p) ;;
            match r with
            | Done p' => set_existing_plugin (Some p')
            | APIError error =>
                fail (wrap_error
                        (PrefixTuple1 ("Failed to disable local docker logging plugin "
                                       ++ alias prm ++ ". "))
                        error)
            end) ;;
         when main_action
           (append_action ("Disabled local docker logging plugin "
                           ++ alias prm ++ ".") ;;
            set_changed))
  | None => ret tt
  end.

(** [update_plugin] (lines 275-299); [need_enable], assigned and never
    read, is left out. *)
Definition update_plugin (differences : DifferenceTracker.t) : M unit :=
  when (negb (check_mode client))
    (let must_enable := state_eqb (state prm) state_enabled in
     p <- inspect AttrEnabled ;;
     when (enabled p) (disable_plugin false) ;;
     m <- get ;;
     match existing_plugin m with
     | None => raise AttributeError
     | Some p =>
         let options := prepare_options (plugin_options prm) in
         r <- call_gateway (Configure p options)
                (plugin_configure gw p options) ;;
         match r with
         | Done p' => set_existing_plugin (Some p')
         | APIError error =>
             fail (wrap_error
                     (PrefixTuple1 ("Failed to update local docker logging plugin "
                                    ++ alias prm))
                     error)
         end
     end ;;
     when must_enable (enable_plugin false)) ;;
  append_action ("Updated local docker logging plugin "
                 ++ alias prm ++ " settings.") ;;
  set_changed.

Definition is_some {A} (o : option A) : bool :=
  match o with Some _ => true | None => false end.

(** [present] (lines 301-321). *)
Definition present : M unit :=
  m <- get ;;
  differences <- (if is_some (existing_plugin m)
                  then has_different_config
                  else ret DifferenceTracker.new) ;;
  m <- get ;;
  set_diff_tracker
    (DifferenceTracker.add "exists" (DifferenceTracker.PBool true)
       (DifferenceTracker.PBool (is_some (existing_plugin m)))
       (diff_tracker m)) ;;
  (if negb (DifferenceTracker.empty differences)
   then update_plugin differences
   else install_plugin) ;;
  when (diff client || check_mode client || debug prm)
    (set_results_diff
       (LegacyDiff (DifferenceTracker.get_legacy_docker_diffs differences)) ;;
     m <- get ;;
     set_diff_tracker (DifferenceTracker.merge (diff_tracker m) differences)) ;;
  when (negb (check_mode client) && negb (debug prm)) pop_actions.

(** [absent] (lines 323-324). *)
Definition absent : M unit := remove_plugin.

(** [enable] (lines 326-348). *)
Definition enable : M unit :=
  m <- get ;;
  differences <- (if is_some (existing_plugin m)
                  then has_different_config
                  else ret DifferenceTracker.new) ;;
  m <- get ;;
  set_diff_tracker
    (DifferenceTracker.add "exists" (DifferenceTracker.PBool true)
       (DifferenceTracker.PBool (is_some (existing_plugin m)))
       (diff_tracker m)) ;;
  (if negb (DifferenceTracker.empty differences)
   then update_plugin differences
   else (install_plugin ;; enable_plugin true)) ;;
  when (diff client || check_mode client || debug prm)
    (set_results_diff
       (LegacyDiff (DifferenceTracker.get_legacy_docker_diffs differences)) ;;
     m <- get ;;
     set_diff_tracker (DifferenceTracker.merge (diff_tracker m) differences)) ;;
  when (negb (check_mode client) && negb (debug prm)) pop_actions.

(** [disable] (lines 350-351). *)
Definition disable : M unit := disable_plugin true.

(** [DockerPluginManager.__init__] (lines 154-169), after the fields are
    set. *)
Definition init : M unit :=
  p <- get_existing_plugin ;;
  set_existing_plugin p ;;
  match state prm with
  | state_present => present
  | state_absent => absent
  | state_enabled => enable
  | state_disabled => disable
  end ;;
  when (diff client || check_mode client || debug prm)
    (when (diff client)
       (m <- get ;;
        set_diff_result
          (Some (DifferenceTracker.get_before_after (diff_tracker m)))) ;;
     m <- get ;;
     set_results_diff (BeforeAfter (diff_result m))).

(** The manager as [__init__] finds it, on an engine in state [e]. *)
Definition fresh (e : E) : manager :=
  {| existing_plugin := None;
     results := {| changed := false; actions := Some []; results_diff := None |};
     diff_tracker := DifferenceTracker.new;
     diff_result := None;
     engine := e;
     trace := [] |}.

(** What the process ends with: [exit_json] of the results, [fail_json] or
    a traceback. *)
Inductive exit : Type :=
| exit_json (r : results_t)
| fail_json (msg : string)
| traceback (e : exn).

(** [main()] on an engine in state [e]: how the process ends, the engine
    it leaves and the history of the run. *)
Definition main (e : E) : exit * E * list event :=
  match init (fresh e) with
  | (Return _, m) => (exit_json (results m), engine m, trace m)
  | (Fail msg, m) => (fail_json msg, engine m, trace m)
  | (Uncaught x, m) => (traceback x, engine m, trace m)
  end.

End Manager.

Arguments existing_plugin {E} m.
Arguments results {E} m.
Arguments diff_tracker {E} m.
Arguments diff_result {E} m.
Arguments engine {E} m.
Arguments trace {E} m.

(** The gateway calls of a history, without the ghost reads. *)
Fixpoint calls (tr : list event) : list call :=
  match tr with
  | [] => []
  | Call c _ :: r => c :: calls r
  | Inspect _ :: r => calls r
  end.

(** ** A reference engine *)

(** Modelled from the spec: the engine behind the Plugin Gateway of section
    4.3 (docker-py and the Docker daemon) is an external collaborator.  This
    one holds at most one plugin; [lookup] finds it by alias, [install]
    creates it disabled with no settings, [remove] deletes it, [enable] and
    [disable] set its flag, [configure] overwrites or adds the given
    [KEY=VALUE] entries.  One kind of operation can be made to fail. *)
Module Engine.

Inductive op : Type :=
| OpGet | OpInstall | OpRemove | OpEnable | OpDisable | OpConfigure.

Definition op_eqb (a b : op) : bool :=
  match a, b with
  | OpGet, OpGet | OpInstall, OpInstall | OpRemove, OpRemove
  | OpEnable, OpEnable | OpDisable, OpDisable
  | OpConfigure, OpConfigure => true
  | _, _ => false
  end.

Record t : Type := {
  installed : option plugin;
  fault : option (op * string)
}.

Definition faulty (o : op) (e : t) : option string :=
  match fault e with
  | Some (o', text) => if op_eqb o o' then Some text else None
  | None => None
  end.

Definition with_plugin (p : option plugin) (e : t) : t :=
  {| installed := p; fault := fault e |}.

Definition key_of (entry : string) : string := hd "" (split_eq_1 entry).

Fixpoint set_env (entry : string) (env : list string) : list string :=
  match env with
  | [] => [entry]
  | x :: r =>
      if String.eqb (key_of x) (key_of entry) then entry :: r
      else x :: set_env entry r
  end.

Definition answer {A} (o : op) (e : t) (ok : response A * t)
  : response A * t :=
  match faulty o e with
  | Some text => (APIError text, e)
  | None => ok
  end.

Definition update (p : plugin) (e : t) : response plugin * t :=
  (Done p, with_plugin (Some p) e).

Definition gateway : Gateway t :=
  {| plugins_get := fun alias e =>
       match faulty OpGet e with
       | Some text => (LookupAPIError text, e)
       | None =>
           match installed e with
           | Some p =>
               if String.eqb (plugin_name p) alias
               then (Found p, e) else (NotFound, e)
           | None => (NotFound, e)
           end
       end;
     plugins_install := fun _ alias e =>
       answer OpInstall e
         (update {| plugin_name := alias; enabled := false;
                    settings_Env := [] |} e);
     plugin_remove := fun _ e =>
       answer OpRemove e (Done tt, with_plugin None e);
     plugin_enable := fun p _ e =>
       answer OpEnable e
         (update {| plugin_name := plugin_name p; enabled := true;
                    settings_Env := settings_Env p |} e);
     plugin_disable := fun p e =>
       answer OpDisable e
         (update {| plugin_name := plugin_name p; enabled := false;
                    settings_Env := settings_Env p |} e);
     plugin_configure := fun p options e =>
       answer OpConfigure e
         (update {| plugin_name := plugin_name p; enabled := enabled p;
                    settings_Env :=
                      fold_left (fun env o => set_env o env) options
                                (settings_Env p) |} e) |}.

(** An engine without faults holding [p]. *)
Definition holding (p : option plugin) : t :=
  {| installed := p; fault := None |}.

(** [repr] of a string without quotes, backslashes or control
    characters. *)
Definition repr (s : string) : string := "'" ++ s ++ "'".

Definition run (client : AnsibleDockerClient) (e : t)
  : exit * t * list event :=
  main gateway repr client e.

End Engine.

(** ** Vocabulary of the properties *)

(** The entries of an option list; an absent list has none. *)
Definition entries (options_list : option (list string)) : list string :=
  match options_list with
  | Some l => l
  | None => []
  end.

(** [x] is [k=v] where [k] holds no ['=']: [(k, v)] is [x] split once on
    its first ['=']. *)
Definition splits_into (x : string) (kv : string * string) : Prop :=
  x = fst kv ++ "=" ++ snd kv /\ has_char "=" (fst kv) = false.

(** The items of the desired options; absent options have none. *)
Definition items (o : option (dict value)) : dict value :=
  match o with
  | Some d => d
  | None => []
  end.

(** Every desired option is among the live settings [env] with the same
    value (the live settings may hold more). *)
Definition settings_match (desired : option (dict value)) (env : list string)
  : Prop :=
  forall k v,
    In (k, v) (items desired) ->
    exists live,
      parse_options (Some env) = Ok live /\ dict_lookup live k = Some v.

(** The record [has_different_config] adds for one desired option. *)
Definition option_difference (live : dict value) (kv : string * value)
  : list DifferenceTracker.difference :=
  if value_eqb (dict_get live (fst kv)) (snd kv) then []
  else [{| DifferenceTracker.name := "plugin_options." ++ fst kv;
           DifferenceTracker.parameter := DifferenceTracker.of_value (snd kv);
           DifferenceTracker.active :=
             DifferenceTracker.of_value (dict_get live (fst kv)) |}].

Definition is_configure (c : call) : bool :=
  match c with Configure _ _ => true | _ => false end.



(** The [prefix] each [except APIError] clause passes to [wrap_error]. *)
Definition failure_prefix (prm : TaskParameters) (c : call) : prefix_arg :=
  match c with
  | Get _ => PrefixStr "Failed to query existing plugins"
  | Install _ _ =>
      PrefixStr ("Failed to install local docker logging plugin "
                 ++ alias prm ++ " from " ++ str_of (name prm))
  | Remove _ =>
      PrefixStr ("Failed to remove local docker logging plugin " ++ alias prm)
  | Enable _ _ =>
      PrefixTuple1 ("Failed to enable local docker logging plugin "
                    ++ alias prm ++ ". ")
  | Disable _ =>
      PrefixTuple1 ("Failed to disable local docker logging plugin "
                    ++ alias prm ++ ". ")
  | Configure _ _ =>
      PrefixTuple1 ("Failed to update local docker logging plugin "
                    ++ alias prm)
  end.

(** An option as it reads once encoded and decoded: [None] is encoded as
    the empty string. *)
Definition stored (kv : string * value) : string * value :=
  (fst kv, Some (match snd kv with Some v => v | None => "" end)).

(** The same task with another image name. *)
Definition with_name (n : value) (client : AnsibleDockerClient)
  : AnsibleDockerClient :=
  {| parameters :=
       {| name := n;
          alias := alias (parameters client);
          plugin_options := plugin_options (parameters client);
          state := state (parameters client);
          debug := debug (parameters client) |};
     check_mode := check_mode client;
     diff := diff client |}.

(** The same task in or out of check mode. *)
Definition with_check_mode (b : bool) (client : AnsibleDockerClient)
  : AnsibleDockerClient :=
  {| parameters := parameters client;
     check_mode := b;
     diff := diff client |}.

(** ** Fixtures *)

Definition loki : plugin :=
  {| plugin_name := "loki"; enabled := true;
     settings_Env := ["LOG_LEVEL=INFO"] |}.

(** The same plugin, disabled, with the same (stale) settings. *)
Definition stale_loki : plugin :=
  {| plugin_name := "loki"; enabled := false;
     settings_Env := ["LOG_LEVEL=INFO"] |}.

Definition task (st : state_choice) (opts : dict value) (chk : bool)
  : AnsibleDockerClient :=
  {| parameters := {| name := Some "grafana/loki-docker-driver:latest";
                      alias := "loki"; plugin_options := Some opts;
                      state := st; debug := false |};
     check_mode := chk; diff := false |}.

(** [state: present] with [--diff] and neither check mode nor debug. *)
Definition task_with_diff : AnsibleDockerClient :=
  {| parameters := parameters (task state_present [] false);
     check_mode := false; diff := true |}.

(** A manager that has looked [p] up on an engine holding it. *)
Definition manager_holding (p : plugin) : manager Engine.t :=
  {| existing_plugin := Some p;
     results := {| changed := false; actions := Some [];
                   results_diff := None |};
     diff_tracker := DifferenceTracker.new;
     diff_result := None;
     engine := Engine.holding (Some p);
     trace := [] |}.

(** An engine without plugin on which [o] fails with [text]. *)
Definition failing (o : Engine.op) (text : string) : Engine.t :=
  {| Engine.installed := None; Engine.fault := Some (o, text) |}.

(** * Properties *)

(** ** Strings and dicts *)

Section StringFacts.

Lemma split_without_eq (x : string) :
  has_char "=" x = false -> split_eq_1 x = [x].
Proof.
  induction x as [|c x IH]; simpl; [reflexivity|].
  destruct (Ascii.eqb c "=") eqn:Hc; simpl; [discriminate|].
  intros H. rewrite (IH H). reflexivity.
Qed.

Lemma split_at_first_eq (k v : string) :
  has_char "=" k = false -> split_eq_1 (k ++ "=" ++ v) = [k; v].
Proof.
  induction k as [|c k IH]; simpl in *; [reflexivity|].
  destruct (Ascii.eqb c "=") eqn:Hc; simpl; [discriminate|].
  intros H. rewrite (IH H). reflexivity.
Qed.

Lemma split_with_eq (x : string) :
  has_char "=" x = true ->
  exists k v, x = k ++ "=" ++ v /\ has_char "=" k = false.
Proof.
  induction x as [|c x IH]; simpl; [discriminate|].
  destruct (Ascii.eqb c "=") eqn:Hc; simpl.
  - intros _. exists "", x. apply Ascii.eqb_eq in Hc. subst c. auto.
  - intros H. destruct (IH H) as (k & v & -> & Hk).
    exists (String c k), v. simpl. rewrite Hc. auto.
Qed.








Lemma app_inj_l (a b c : string) : a ++ b = a ++ c -> b = c.
Proof.
  induction a as [|x a IH]; simpl; [auto|].
  intros H. inversion H. auto.
Qed.

End StringFacts.

Section DictFacts.

Variable V : Type.

Lemma dict_set_new (d : dict V) (k : string) (v : V) :
  ~ In k (keys d) -> dict_set k v d = (d ++ [(k, v)])%list.
Proof.
  induction d as [|[k' v'] d IH]; simpl; [reflexivity|].
  intros H. destruct (String.eqb_spec k' k); [tauto|].
  rewrite IH; tauto.
Qed.

Lemma dict_lookup_set (d : dict V) (k k' : string) (v : V) :
  dict_lookup (dict_set k v d) k' =
  if String.eqb k k' then Some v else dict_lookup d k'.
Proof.
  induction d as [|[k0 v0] d IH]; simpl.
  - reflexivity.
  - destruct (String.eqb_spec k0 k) as [->|Hne]; simpl.
    + destruct (String.eqb_spec k k'); reflexivity.
    + rewrite IH. destruct (String.eqb_spec k0 k') as [->|]; [|reflexivity].
      destruct (String.eqb_spec k k'); [congruence|reflexivity].
Qed.

End DictFacts.

(** ** Option codec *)

Section Codec.

Lemma splits_into_split (x : string) (kv : string * string) :
  splits_into x kv -> split_eq_1 x = [fst kv; snd kv].
Proof. intros [-> H]. apply split_at_first_eq, H. Qed.

Lemma dict_of_entries_raise (l : list string) :
  forall acc e,
    dict_of_entries l acc = Raise e ->
    e = ValueError /\ exists x, In x l /\ has_char "=" x = false.
Proof.
  induction l as [|x l IH]; simpl; intros acc e H; [discriminate|].
  destruct (has_char "=" x) eqn:Hx.
  - destruct (split_with_eq _ Hx) as (k & v & -> & Hk).
    rewrite (split_at_first_eq _ _ Hk) in H. simpl in H.
    destruct (IH _ _ H) as (He & y & Hy & Hy'). eauto.
  - rewrite (split_without_eq _ Hx) in H. simpl in H.
    inversion H. eauto.
Qed.

Lemma dict_of_entries_malformed (l : list string) :
  forall acc,
    (exists x, In x l /\ has_char "=" x = false) ->
    dict_of_entries l acc = Raise ValueError.
Proof.
  induction l as [|x l IH]; simpl; intros acc (y & Hin & Hy); [tauto|].
  destruct (has_char "=" x) eqn:Hx.
  - destruct (split_with_eq _ Hx) as (k & v & -> & Hk).
    rewrite (split_at_first_eq _ _ Hk). simpl.
    apply IH. destruct Hin as [<-|Hin]; [congruence|eauto].
  - rewrite (split_without_eq _ Hx). reflexivity.
Qed.

Lemma dict_of_entries_ok (l : list string) :
  forall acc,
    (forall x, In x l -> has_char "=" x = true) ->
    exists pairs,
      Forall2 splits_into l pairs /\
      dict_of_entries l acc =
      Ok (fold_left (fun d kv => dict_set (fst kv) (Some (snd kv)) d)
                    pairs acc).
Proof.
  induction l as [|x l IH]; simpl; intros acc H.
  - exists []. split; [constructor|reflexivity].
  - destruct (split_with_eq x (H x (or_introl eq_refl)))
      as (k & v & -> & Hk).
    rewrite (split_at_first_eq _ _ Hk). simpl.
    destruct (IH (dict_set k (Some v) acc)) as (pairs & HF & Heq);
      [intros; apply H; auto|].
    exists ((k, v) :: pairs). split; [|exact Heq].
    constructor; [split; auto|exact HF].
Qed.

Lemma fold_set_bound (pairs : list (string * string)) :
  forall (acc : dict value) k,
    (In k (map fst pairs) \/ exists v, dict_lookup acc k = Some (Some v)) ->
    exists v,
      dict_lookup
        (fold_left (fun d kv => dict_set (fst kv) (Some (snd kv)) d)
                   pairs acc) k = Some (Some v).
Proof.
  induction pairs as [|[k0 v0] pairs IH]; simpl; intros acc k H.
  - destruct H as [[]|H]; exact H.
  - apply IH. destruct H as [[<-|H]|[v H]]; auto.
    + right. exists v0. rewrite dict_lookup_set, String.eqb_refl.
      reflexivity.
    + right. rewrite dict_lookup_set.
      destruct (String.eqb k0 k); eauto.
Qed.

Lemma splits_into_key (l : list string) (pairs : list (string * string)) :
  Forall2 splits_into l pairs ->
  forall k v, In (k ++ "=" ++ v) l -> has_char "=" k = false ->
              In k (map fst pairs).
Proof.
  induction 1 as [|x kv l pairs Hx _ IH]; simpl; intros k v Hin Hk;
    [tauto|].
  destruct Hin as [->|Hin]; [|right; exact (IH k v Hin Hk)].
  left. apply splits_into_split in Hx.
  pose proof (split_at_first_eq k v Hk) as Hs. simpl in Hs, Hx.
  congruence.
Qed.

End Codec.

(** C6. [parse_options] raises (Python's [ValueError], from unpacking the
    one-element split) if and only if some entry of the list holds no
    ['=']; it raises nothing else.  When every entry holds one, the result
    is the dict of the pairs obtained by splitting each entry at its first
    ['='], one pair per entry, so that the key of every entry is bound in
    it; an empty or absent list gives the empty dict. *)
Theorem parse_options_fails_iff_malformed
    (options_list : option (list string)) :
  (parse_options options_list = Raise ValueError <->
   exists x, In x (entries options_list) /\ has_char "=" x = false)
  /\ (forall e, parse_options options_list = Raise e -> e = ValueError)
  /\ ((forall x, In x (entries options_list) -> has_char "=" x = true) ->
      exists pairs,
        Forall2 splits_into (entries options_list) pairs /\
        parse_options options_list = Ok (dict_of_pairs pairs) /\
        forall k v,
          In (k ++ "=" ++ v) (entries options_list) ->
          has_char "=" k = false ->
          exists v', dict_lookup (dict_of_pairs pairs) k = Some (Some v'))
  /\ (entries options_list = [] -> parse_options options_list = Ok []).
Proof.
  destruct options_list as [[|x l]|]; cbn [entries];
    [change (parse_options (Some [])) with (@Ok (dict value) [])
    |change (parse_options (Some (x :: l)))
       with (dict_of_entries (x :: l) [])
    |change (parse_options None) with (@Ok (dict value) [])].
  1, 3: (split; [split; [intros H; discriminate H|intros (x & [] & _)]|];
         split; [intros e H; discriminate H|];
         split; [|reflexivity];
         intros _; exists []; repeat split;
         [constructor|intros k v []]).
  repeat split.
  - intros H. eapply dict_of_entries_raise in H. destruct H as [_ H].
    exact H.
  - intros H. apply (dict_of_entries_malformed (x :: l) []). exact H.
  - intros e H. eapply dict_of_entries_raise in H. tauto.
  - intros H.
    destruct (dict_of_entries_ok (x :: l) [] H) as (pairs & HF & Heq).
    exists pairs. repeat split; [exact HF|exact Heq|].
    intros k v Hin Hk. apply fold_set_bound. left.
    eapply splits_into_key; eauto.
  - discriminate.
Qed.

Section RoundTrip.

Lemma prepare_options_map (m : dict value) :
  prepare_options (Some m) =
  map (fun kv => fst kv ++ "=" ++
                 match snd kv with Some v => v | None => "" end) m.
Proof. destruct m; reflexivity. Qed.

Lemma dict_of_entries_encode (m : dict value) :
  forall acc,
    NoDup (keys acc ++ keys m) ->
    (forall k v, In (k, v) m -> has_char "=" k = false /\ v <> None) ->
    dict_of_entries
      (map (fun kv => fst kv ++ "=" ++
                      match snd kv with Some v => v | None => "" end) m)
      acc = Ok (acc ++ m)%list.
Proof.
  induction m as [|[k v] m IH]; simpl; intros acc Hnd H.
  - rewrite app_nil_r. reflexivity.
  - destruct (H k v (or_introl eq_refl)) as [Hk Hv].
    destruct v as [v|]; [|congruence].
    pose proof (split_at_first_eq k v Hk) as Hs. simpl in Hs.
    rewrite Hs. simpl.
    rewrite dict_set_new.
    + rewrite IH.
      * rewrite <- app_assoc. reflexivity.
      * unfold keys in *. rewrite map_app, <- app_assoc. exact Hnd.
      * intros; apply H; auto.
    + apply NoDup_remove_2 in Hnd. intros Hin. apply Hnd.
      apply in_or_app. auto.
Qed.

End RoundTrip.

(** C5 (as amended). For every mapping whose keys are distinct and hold no
    ['='] and whose values are strings, decoding the encoding gives the
    mapping back. *)
Theorem parse_prepare_roundtrip (m : dict value) :
  NoDup (keys m) ->
  (forall k v, In (k, v) m -> has_char "=" k = false /\ v <> None) ->
  parse_options (Some (prepare_options (Some m))) = Ok m.
Proof.
  intros Hnd H. rewrite prepare_options_map.
  pose proof (dict_of_entries_encode m [] Hnd H) as Heq. simpl in Heq.
  destruct m as [|kv m]; [reflexivity|exact Heq].
Qed.

Lemma parse_prepare_roundtrip_witness :
  parse_options
    (Some (prepare_options (Some [("LOG_LEVEL", Some "DEBUG");
                                  ("URL", Some "http://h/?a=b")]))) =
  Ok [("LOG_LEVEL", Some "DEBUG"); ("URL", Some "http://h/?a=b")].
Proof.
  apply parse_prepare_roundtrip.
  - repeat constructor; simpl; intuition discriminate.
  - simpl. intros k v [H|[H|[]]]; inversion H; split;
      (reflexivity || discriminate).
Defined.

(** C5 (as stated) fails on a key that holds ['=']: the encoding [a=b=c]
    of [{'a=b': 'c'}] decodes to [{'a': 'b=c'}]. *)
Lemma parse_prepare_key_with_eq :
  let m := [("a=b", Some "c")] in
  NoDup (keys m) /\
  (forall k v, In (k, v) m -> v <> None) /\
  parse_options (Some (prepare_options (Some m))) = Ok [("a", Some "b=c")] /\
  parse_options (Some (prepare_options (Some m))) <> Ok m.
Proof.
  simpl. repeat split.
  - repeat constructor. simpl. tauto.
  - intros k v [H|[]]. inversion H. discriminate.
  - discriminate.
Qed.

(** ** Configuration differences *)

Section Differences.

Lemma value_eqb_eq (a b : value) : value_eqb a b = true <-> a = b.
Proof.
  destruct a as [a|], b as [b|]; simpl; split; try congruence.
  - intros H. apply String.eqb_eq in H. congruence.
  - intros H. inversion H. apply String.eqb_refl.
Qed.

Lemma option_differences_flat_map (desired live : dict value) :
  option_differences desired live =
  flat_map (option_difference live) desired.
Proof.
  unfold option_differences.
  rewrite <- (app_nil_l (flat_map _ _)).
  change DifferenceTracker.new with (@nil DifferenceTracker.difference).
  generalize (@nil DifferenceTracker.difference) as acc.
  induction desired as [|kv desired IH]; intros acc; simpl.
  - rewrite app_nil_r. reflexivity.
  - rewrite IH, app_assoc. f_equal. unfold option_difference.
    destruct (value_eqb _ _); simpl;
      [rewrite app_nil_r|]; reflexivity.
Qed.

(** The records are exactly those of the desired options whose live value
    differs. *)
Lemma option_differences_records (desired live : dict value)
      (r : DifferenceTracker.difference) :
  In r (option_differences desired live) <->
  exists k v,
    In (k, v) desired /\ dict_get live k <> v /\
    r = {| DifferenceTracker.name := "plugin_options." ++ k;
           DifferenceTracker.parameter := DifferenceTracker.of_value v;
           DifferenceTracker.active :=
             DifferenceTracker.of_value (dict_get live k) |}.
Proof.
  rewrite option_differences_flat_map, in_flat_map. split.
  - intros ([k v] & Hin & Hr). exists k, v. split; [exact Hin|].
    unfold option_difference in Hr. simpl in Hr.
    destruct (value_eqb (dict_get live k) v) eqn:Hv; [destruct Hr|].
    destruct Hr as [<-|[]]. split; [|reflexivity].
    intros Heq. apply value_eqb_eq in Heq. congruence.
  - intros (k & v & Hin & Hne & ->). exists (k, v). split; [exact Hin|].
    unfold option_difference. simpl.
    destruct (value_eqb (dict_get live k) v) eqn:Hv.
    + apply value_eqb_eq in Hv. contradiction.
    + left. reflexivity.
Qed.

(** The differences depend on the live settings only through the desired
    keys. *)
Lemma option_differences_one_sided (desired live live' : dict value) :
  (forall k, In k (keys desired) -> dict_get live k = dict_get live' k) ->
  option_differences desired live = option_differences desired live'.
Proof.
  intros H. rewrite !option_differences_flat_map.
  induction desired as [|[k v] desired IH]; simpl; [reflexivity|].
  rewrite IH by (intros; apply H; simpl; auto). f_equal.
  unfold option_difference. simpl. rewrite (H k) by (simpl; auto).
  reflexivity.
Qed.

Lemma option_differences_matching (desired live : dict value) :
  (forall k v, In (k, v) desired -> dict_lookup live k = Some v) ->
  option_differences desired live = [].
Proof.
  intros H. destruct (option_differences desired live) as [|r l] eqn:Heq;
    [reflexivity|].
  assert (Hin : In r (option_differences desired live))
    by (rewrite Heq; left; reflexivity).
  apply option_differences_records in Hin.
  destruct Hin as (k & v & Hin & Hne & _). exfalso. apply Hne.
  unfold dict_get. rewrite (H k v Hin). reflexivity.
Qed.

End Differences.

(** ** Executing the manager *)

Arguments prepare_options : simpl never.
Arguments parse_options : simpl never.
Arguments option_differences : simpl never.
Arguments String.append : simpl never.

Ltac unfold_primitives :=
  unfold inspect, append_action, set_changed, set_results_diff, pop_actions,
    call_gateway, set_existing_plugin, set_results, set_diff_tracker,
    set_diff_result, log, when, bind, ret, get, fail, raise, lift, fresh.

Ltac unfold_manager :=
  unfold main, init, present, absent, enable, disable, update_plugin,
    enable_plugin, disable_plugin, install_plugin, remove_plugin,
    has_different_config, get_existing_plugin;
  unfold_primitives.

(** Case analysis on the innermost scrutinee the execution is stuck on. *)
Ltac step :=
  match goal with
  | |- context [match ?x with _ => _ end] =>
      match x with
      | context [match _ with _ => _ end] => fail 1
      | _ => destruct x eqn:?
      end
  end.

Section HasDifferentConfig.

Variable E : Type.
Variable client : AnsibleDockerClient.

(** With no desired options nothing is read and nothing differs. *)
Lemma has_different_config_no_options (m : manager E) :
  items (plugin_options (parameters client)) = [] ->
  has_different_config client m = (Return DifferenceTracker.new, m).
Proof.
  unfold has_different_config.
  destruct (plugin_options (parameters client)) as [[|kv d]|]; simpl;
    intros H; try discriminate; reflexivity.
Qed.

(** When the desired options are among the live settings, nothing
    differs; the settings are read if there is a desired option. *)
Lemma has_different_config_matching (m : manager E) (p : plugin) :
  existing_plugin m = Some p ->
  settings_match (plugin_options (parameters client)) (settings_Env p) ->
  has_different_config client m =
  (Return DifferenceTracker.new,
   if truthy (items (plugin_options (parameters client)))
   then snd (log (Inspect AttrSettings) m) else m).
Proof.
  intros Hp Hm. unfold has_different_config, settings_match in *.
  destruct (plugin_options (parameters client)) as [[|[k v] d]|];
    try reflexivity.
  destruct (Hm k v (or_introl eq_refl)) as (live & Hlive & Hk).
  unfold_primitives. simpl in *. rewrite Hp, Hlive.
  destruct live as [|kv live]; [discriminate|]. simpl.
  rewrite option_differences_matching; [reflexivity|].
  intros k' v' Hin. destruct (Hm k' v' Hin) as (live' & Hlive' & Hk').
  congruence.
Qed.

(** The records of [has_different_config]: the whole-mapping record when
    the live settings decode to nothing, otherwise one record per desired
    option whose live value differs. *)
Lemma has_different_config_records
      (m m' : manager E) (p : plugin) (live : dict value)
      (ds : DifferenceTracker.t) :
  existing_plugin m = Some p ->
  parse_options (Some (settings_Env p)) = Ok live ->
  has_different_config client m = (Return ds, m') ->
  forall r, In r ds ->
    (live = [] /\ DifferenceTracker.name r = "plugin_options") \/
    exists k v,
      In (k, v) (items (plugin_options (parameters client))) /\
      dict_get live k <> v /\
      r = {| DifferenceTracker.name := "plugin_options." ++ k;
             DifferenceTracker.parameter := DifferenceTracker.of_value v;
             DifferenceTracker.active :=
               DifferenceTracker.of_value (dict_get live k) |}.
Proof.
  intros Hp Hlive.
  unfold has_different_config. unfold_primitives. simpl.
  destruct (plugin_options (parameters client)) as [[|kv d]|]; simpl.
  1, 3: intros H; inversion H; intros r [].
  rewrite Hp, Hlive. simpl. destruct live as [|x live]; simpl.
  - intros H; inversion H. intros r [<-|[]]. left. auto.
  - intros H; inversion H. intros r Hr. right.
    apply option_differences_records in Hr. exact Hr.
Qed.

End HasDifferentConfig.

Lemma calls_app (a b : list event) :
  calls (a ++ b) = (calls a ++ calls b)%list.
Proof.
  induction a as [|[c err|x] a IH]; simpl; [reflexivity| |exact IH].
  rewrite IH. reflexivity.
Qed.


(** Membership in an explicit list, case by case. *)
Ltac each_member H :=
  repeat (destruct H as [<-|H]; [reflexivity|]); destruct H.

(** ** Check mode *)

(** X7. In check mode no call other than a lookup reaches the gateway,
    whatever the target state, the engine and the way the run ends. *)
Lemma check_mode_only_lookups E (gw : Gateway E) repr client e :
  check_mode client = true ->
  let '(_, _, tr) := main gw repr client e in
  forall ev, In ev tr -> mutating ev = false.
Proof.
  intros Hc. unfold_manager. rewrite Hc. simpl.
  repeat (step; simpl).
  all: intros ev Hin; each_member Hin.
Qed.

(** X8. Check mode, [state: present], no plugin: the install is reported
    ([changed = true], one action naming the alias and the image) and not
    made. *)
Lemma check_mode_present_reports_install E (gw : Gateway E) repr client e :
  check_mode client = true ->
  state (parameters client) = state_present ->
  fst (plugins_get gw (alias (parameters client)) e) = NotFound ->
  let '(ex, _, tr) := main gw repr client e in
  calls tr = [Get (alias (parameters client))] /\
  exists r,
    ex = exit_json r /\ changed r = true /\
    actions r = Some ["Installed local docker logging plugin "
                      ++ alias (parameters client) ++ " from "
                      ++ str_of (name (parameters client)) ++ "."].
Proof.
  intros Hc Hs Hl. unfold_manager. simpl. rewrite Hc, Hs, Hl. simpl.
  rewrite !orb_true_r. simpl.
  repeat (step; simpl); (split; [reflexivity|]); eexists; repeat split;
    reflexivity.
Qed.

(** C1 (the code departs from it). Check mode, [state: enabled], no plugin
    with the alias: [install_plugin] skips the install and leaves
    [existing_plugin] at [None], [enable_plugin] looks the plugin up again,
    finds none and reads [self.existing_plugin.enabled]: the run ends in an
    [AttributeError] and reports nothing. *)
Theorem check_mode_enable_without_plugin_raises
    E (gw : Gateway E) repr client e :
  check_mode client = true ->
  state (parameters client) = state_enabled ->
  let a := alias (parameters client) in
  let r1 := plugins_get gw a e in
  let r2 := plugins_get gw a (snd r1) in
  fst r1 = NotFound -> fst r2 = NotFound ->
  main gw repr client e =
  (traceback AttributeError, snd r2,
   [Call (Get a) None; Call (Get a) None; Inspect AttrEnabled]).
Proof.
  intros Hc Hs a r1 r2 H1 H2. subst a r1 r2.
  unfold_manager. simpl. rewrite Hc, Hs, H1. simpl.
  rewrite H2. simpl. reflexivity.
Qed.

Lemma check_mode_enable_without_plugin_raises_witness :
  Engine.run (task state_enabled [] true) (Engine.holding None) =
  (traceback AttributeError, Engine.holding None,
   [Call (Get "loki") None; Call (Get "loki") None; Inspect AttrEnabled]).
Proof.
  apply (@check_mode_enable_without_plugin_raises
           _ Engine.gateway Engine.repr (task state_enabled [] true)
           (Engine.holding None));
    reflexivity.
Defined.

(** ** Target state [absent] *)

(** C7 (as amended). With [state: absent]: when the lookup finds a plugin,
    the run, outside check mode, calls [remove] on it whatever its state,
    and ends with [changed = true] if the call succeeds (and with
    [fail_json] if not); in check mode it calls nothing more and ends with
    [changed = true]. When the lookup finds none, the run makes no other
    call and ends with [changed = false]. *)
Theorem absent_removes_unless_check_mode E (gw : Gateway E) repr client e :
  state (parameters client) = state_absent ->
  let a := alias (parameters client) in
  let r1 := plugins_get gw a e in
  let '(ex, _, tr) := main gw repr client e in
  match fst r1 with
  | Found p =>
      if check_mode client
      then calls tr = [Get a] /\
           exists r, ex = exit_json r /\ changed r = true
      else calls tr = [Get a; Remove p] /\
           match fst (plugin_remove gw p (snd r1)) with
           | Done _ => exists r, ex = exit_json r /\ changed r = true
           | APIError _ => exists msg, ex = fail_json msg
           end
  | NotFound =>
      calls tr = [Get a] /\ exists r, ex = exit_json r /\ changed r = false
  | LookupAPIError _ => exists msg, ex = fail_json msg
  end.
Proof.
  intros Hs. unfold_manager. simpl. rewrite Hs. simpl.
  repeat (step; simpl); simpl in *; try discriminate; eauto.
Qed.

Lemma absent_removes_unless_check_mode_witness :
  let '(ex, _, tr) := Engine.run (task state_absent [] false)
                        (Engine.holding (Some loki)) in
  calls tr = [Get "loki"; Remove loki] /\
  exists r, ex = exit_json r /\ changed r = true.
Proof.
  exact (@absent_removes_unless_check_mode
           _ Engine.gateway Engine.repr (task state_absent [] false)
           (Engine.holding (Some loki)) eq_refl).
Defined.

(** C7 (as stated) fails in check mode: the plugin exists, [remove] is not
    called and the engine still holds the plugin, while [changed = true] is
    reported. *)
Lemma absent_check_mode_skips_remove :
  let '(ex, e, tr) := Engine.run (task state_absent [] true)
                        (Engine.holding (Some loki)) in
  calls tr = [Get "loki"] /\ ~ In (Remove loki) (calls tr) /\
  e = Engine.holding (Some loki) /\
  exists r, ex = exit_json r /\ changed r = true.
Proof.
  vm_compute. repeat split; eauto. intros [H|[]]. discriminate.
Qed.

(** ** Target state [enabled], nothing to do *)

(** C2 (as amended). With [state: enabled], when the lookup finds an
    enabled plugin whose live settings hold every desired option with the
    desired value, and the second lookup of the enable path finds it enabled
    too, the run calls the gateway for these two lookups and nothing else,
    and ends with [changed = false]. *)
Theorem enabled_and_matching_only_looks_up
    E (gw : Gateway E) repr client e p q :
  state (parameters client) = state_enabled ->
  let a := alias (parameters client) in
  let r1 := plugins_get gw a e in
  let r2 := plugins_get gw a (snd r1) in
  fst r1 = Found p -> enabled p = true ->
  settings_match (plugin_options (parameters client)) (settings_Env p) ->
  fst r2 = Found q -> enabled q = true ->
  exists r tr,
    main gw repr client e = (exit_json r, snd r2, tr) /\
    calls tr = [Get a; Get a] /\ changed r = false.
Proof.
  intros Hs a r1 r2 H1 Hp Hm H2 Hq. subst a r1 r2.
  unfold main, init, enable, enable_plugin, install_plugin,
    get_existing_plugin.
  unfold_primitives. simpl. rewrite Hs, H1. simpl.
  erewrite has_different_config_matching by (simpl; eauto).
  destruct (truthy (items (plugin_options (parameters client)))); simpl;
    rewrite H2; simpl; rewrite Hq; simpl;
    repeat (step; simpl); eauto.
Qed.

Lemma enabled_and_matching_only_looks_up_witness :
  exists r tr,
    Engine.run (task state_enabled [("LOG_LEVEL", Some "INFO")] false)
               (Engine.holding (Some loki)) =
    (exit_json r, Engine.holding (Some loki), tr) /\
    calls tr = [Get "loki"; Get "loki"] /\ changed r = false.
Proof.
  apply (@enabled_and_matching_only_looks_up
           _ Engine.gateway Engine.repr
           (task state_enabled [("LOG_LEVEL", Some "INFO")] false)
           (Engine.holding (Some loki)) loki loki);
    try reflexivity.
  intros k v [H|[]]. inversion H. subst k v.
  exists [("LOG_LEVEL", Some "INFO")]. split; reflexivity.
Defined.

(** C2 (as stated) fails: the run does call the gateway, for the lookup at
    the start and for the one of the enable path. *)
Lemma enabled_and_matching_still_looks_up :
  let '(ex, e, tr) :=
    Engine.run (task state_enabled [("LOG_LEVEL", Some "INFO")] false)
               (Engine.holding (Some loki)) in
  tr = [Call (Get "loki") None; Inspect AttrSettings;
        Call (Get "loki") None; Inspect AttrEnabled] /\
  calls tr <> [] /\
  ex = exit_json {| changed := false; actions := None;
                    results_diff := None |}.
Proof. vm_compute. repeat split. discriminate. Qed.

(** ** The update path *)


(** C3 (as amended). On the reference engine holding the plugin [p] the
    manager has looked up, [update_plugin] returns, appends the one action
    [Updated ... settings.] and sets [changed], in check mode as well as
    outside it. Outside check mode its gateway calls are: [disable] if and
    only if [p] is enabled; then [configure] with the encoded desired
    options; then, if and only if the target state is [enabled], a lookup
    and [enable] with timeout 1 - also when [p] was disabled already. The
    plugin is left with the new settings, enabled exactly when the target
    state is [enabled]. In check mode it calls nothing. *)
Theorem update_plugin_steps
    client (m : manager Engine.t) p acts (ds : DifferenceTracker.t) :
  let prm := parameters client in
  let options := prepare_options (plugin_options prm) in
  let disabled_p :=
    {| plugin_name := plugin_name p; enabled := false;
       settings_Env := settings_Env p |} in
  let configured_p :=
    {| plugin_name := plugin_name p; enabled := false;
       settings_Env := fold_left (fun env o => Engine.set_env o env) options
                                 (settings_Env p) |} in
  existing_plugin m = Some p ->
  plugin_name p = alias prm ->
  engine m = Engine.holding (Some p) ->
  actions (results m) = Some acts ->
  exists m',
    update_plugin Engine.gateway Engine.repr client ds m = (Return tt, m') /\
    calls (trace m') =
    (calls (trace m) ++
     if check_mode client then []
     else (if enabled p then [Disable p] else []) ++
          [Configure (if enabled p then disabled_p else p) options] ++
          (if state_eqb (state prm) state_enabled
           then [Get (alias prm); Enable configured_p 1] else []))%list /\
    actions (results m') =
    Some (acts ++ [("Updated local docker logging plugin "
                    ++ alias prm ++ " settings.")%string])%list /\
    changed (results m') = true /\
    (check_mode client = true -> engine m' = engine m) /\
    (check_mode client = false ->
     exists q,
       Engine.installed (engine m') = Some q /\
       enabled q = state_eqb (state prm) state_enabled /\
       settings_Env q = settings_Env configured_p).
Proof.
  intros prm options disabled_p configured_p Hp Hn He Ha.
  subst prm options disabled_p configured_p.
  destruct m as [ep res dt dr eng tr]. simpl in *. subst ep eng.
  destruct res as [ch ac rd]. simpl in *. subst ac.
  destruct p as [pn pe env]. simpl in *. subst pn.
  unfold update_plugin, enable_plugin, disable_plugin, get_existing_plugin.
  unfold_primitives.
  destruct (check_mode client), pe, (state (parameters client)); simpl;
    rewrite ?String.eqb_refl; simpl;
    eexists; (split; [reflexivity|]); simpl;
    rewrite ?calls_app; simpl; rewrite ?app_nil_r, <- ?app_assoc; simpl;
    repeat split; try discriminate; eauto.
Qed.

(** The plugin already disabled with stale settings, target [enabled]:
    reconfigured, looked up, enabled. *)
Lemma update_plugin_steps_witness :
  exists m',
    update_plugin Engine.gateway Engine.repr
      (task state_enabled [("LOG_LEVEL", Some "DEBUG")] false) []
      (manager_holding stale_loki) = (Return tt, m') /\
    calls (trace m') =
    [Configure stale_loki ["LOG_LEVEL=DEBUG"]; Get "loki";
     Enable {| plugin_name := "loki"; enabled := false;
               settings_Env := ["LOG_LEVEL=DEBUG"] |} 1] /\
    actions (results m') =
    Some ["Updated local docker logging plugin loki settings."] /\
    changed (results m') = true /\
    exists q,
      Engine.installed (engine m') = Some q /\
      enabled q = true /\ settings_Env q = ["LOG_LEVEL=DEBUG"].
Proof.
  destruct (@update_plugin_steps
              (task state_enabled [("LOG_LEVEL", Some "DEBUG")] false)
              (manager_holding stale_loki) stale_loki [] []
              eq_refl eq_refl eq_refl eq_refl)
    as (m' & Hrun & Hcalls & Hact & Hch & _ & Hq).
  exists m'. repeat split; try assumption. apply Hq. reflexivity.
Defined.

(** C3 (as stated) fails in check mode: the plugin exists and its settings
    differ, the update is reported, and neither [disable] nor [configure]
    nor [enable] is called. *)
Lemma update_in_check_mode_skips_configure :
  let '(ex, e, tr) :=
    Engine.run (task state_enabled [("LOG_LEVEL", Some "DEBUG")] true)
               (Engine.holding (Some loki)) in
  calls tr = [Get "loki"] /\
  e = Engine.holding (Some loki) /\
  exists r,
    ex = exit_json r /\ changed r = true /\
    actions r = Some ["Updated local docker logging plugin loki settings."].
Proof. vm_compute. repeat split. eexists. repeat split. Qed.

(** ** Freshness of the snapshot *)



(** ** Engine errors *)







(** ** What the result holds *)

(** C9 (as amended). In the result of every run that ends with one, the
    [diff] key is present if and only if check mode, debug or diff is on;
    the [actions] key is absent if and only if the target state is
    [present] or [enabled] and neither check mode nor debug is on (a diff
    request does not keep it; [absent] and [disabled] always keep it). *)
Theorem actions_and_diff_in_result E (gw : Gateway E) repr client e :
  let '(ex, _, _) := main gw repr client e in
  forall r,
    ex = exit_json r ->
    (results_diff r <> None <->
     diff client || check_mode client || debug (parameters client) = true) /\
    (actions r = None <->
     (state (parameters client) = state_present \/
      state (parameters client) = state_enabled) /\
     check_mode client = false /\ debug (parameters client) = false).
Proof.
  unfold_manager. simpl.
  repeat (step; simpl).
  all: intros r Hr; try discriminate Hr; inversion Hr; subst r; clear Hr;
    simpl.
  all: destruct (check_mode client), (debug (parameters client)),
         (diff client); try discriminate.
  all: repeat match goal with H : state _ = _ |- _ => rewrite H end.
  all: simpl; intuition (discriminate || congruence).
Qed.

Lemma actions_and_diff_in_result_witness :
  let r := {| changed := true; actions := None; results_diff := None |} in
  (results_diff r <> None <->
   false || false || false = true) /\
  (actions r = None <->
   (state_enabled = state_present \/ state_enabled = state_enabled) /\
   false = false /\ false = false).
Proof.
  pose proof (@actions_and_diff_in_result
                _ Engine.gateway Engine.repr (task state_enabled [] false)
                (Engine.holding None)) as H.
  assert (Hrun : main Engine.gateway Engine.repr (task state_enabled [] false)
                   (Engine.holding None) =
                 (exit_json {| changed := true; actions := None;
                               results_diff := None |},
                  Engine.holding
                    (Some {| plugin_name := "loki"; enabled := true;
                             settings_Env := [] |}),
                  [Call (Get "loki") None;
                   Call (Install (Some "grafana/loki-docker-driver:latest")
                                 "loki") None;
                   Call (Get "loki") None; Inspect AttrEnabled;
                   Call (Enable {| plugin_name := "loki"; enabled := false;
                                   settings_Env := [] |} 1) None]))
    by (vm_compute; reflexivity).
  rewrite Hrun in H. exact (H _ eq_refl).
Defined.

(** C9 (as stated) fails both ways: [state: absent] without check mode,
    debug or diff keeps [actions]; [state: present] with a diff request
    alone drops it, while the [diff] key is there. *)
Lemma actions_kept_or_dropped_against_flags :
  (let '(ex, _, _) :=
     Engine.run (task state_absent [] false) (Engine.holding None) in
   ex = exit_json {| changed := false; actions := Some [];
                     results_diff := None |})
  /\ (let '(ex, _, _) :=
        Engine.run task_with_diff (Engine.holding (Some loki)) in
      exists r,
        ex = exit_json r /\ actions r = None /\ results_diff r <> None).
Proof.
  vm_compute. split; [reflexivity|]. eexists. repeat split. discriminate.
Qed.

(** ** One-sided difference computation *)

(** C10. The difference computation looks at the desired options only.
    - With no desired options (an empty or absent mapping),
      [has_different_config] reads nothing and returns no record.
    - Otherwise each record is either the whole-mapping record, added when
      the live settings decode to nothing, or the record of a desired option
      whose live value differs; so no record is named after a key that is
      live and not desired.
    - The per-option records depend on the live settings only through the
      desired keys.
    - In a run with [state: present] or [state: enabled] on an existing
      plugin whose live settings hold every desired option with the desired
      value, whatever else they hold, [configure] is never called.
    - In any run, a [configure] call carries the encoding of the desired
      options and nothing else. *)
Theorem differences_only_over_desired_options
    E (gw : Gateway E) repr client :
  let prm := parameters client in
  let desired := items (plugin_options prm) in
  (forall m : manager E,
      desired = [] ->
      has_different_config client m = (Return DifferenceTracker.new, m))
  /\ (forall (m m' : manager E) p live ds,
         existing_plugin m = Some p ->
         parse_options (Some (settings_Env p)) = Ok live ->
         has_different_config client m = (Return ds, m') ->
         forall r, In r ds ->
           (live = [] /\ DifferenceTracker.name r = "plugin_options") \/
           exists k v,
             In (k, v) desired /\ dict_get live k <> v /\
             r = {| DifferenceTracker.name := "plugin_options." ++ k;
                    DifferenceTracker.parameter :=
                      DifferenceTracker.of_value v;
                    DifferenceTracker.active :=
                      DifferenceTracker.of_value (dict_get live k) |})
  /\ (forall (m m' : manager E) p live ds k,
         existing_plugin m = Some p ->
         parse_options (Some (settings_Env p)) = Ok live ->
         has_different_config client m = (Return ds, m') ->
         In k (keys live) -> ~ In k (keys desired) ->
         forall r, In r ds ->
           DifferenceTracker.name r <> "plugin_options." ++ k /\
           DifferenceTracker.name r <> "plugin_options")
  /\ (forall live live',
         (forall k, In k (keys desired) ->
                    dict_get live k = dict_get live' k) ->
         option_differences desired live = option_differences desired live')
  /\ (forall e p,
         state prm = state_present \/ state prm = state_enabled ->
         fst (plugins_get gw (alias prm) e) = Found p ->
         settings_match (plugin_options prm) (settings_Env p) ->
         let '(_, _, tr) := main gw repr client e in
         forall c, In c (calls tr) -> is_configure c = false)
  /\ (forall e,
         let '(_, _, tr) := main gw repr client e in
         forall p options,
           In (Configure p options) (calls tr) ->
           options = prepare_options (plugin_options prm)).
Proof.
  intros prm desired. subst prm desired.
  split; [|split; [|split; [|split; [|split]]]].
  - intros m. apply has_different_config_no_options.
  - intros m m' p live ds. apply has_different_config_records.
  - intros m m' p live ds k Hp Hlive Hrun Hk Hnot r Hr.
    destruct (has_different_config_records _ _ Hp Hlive Hrun r Hr)
      as [[-> _]|(k' & v & Hin & _ & ->)]; [destruct Hk|].
    simpl. split.
    + intros Heq. apply app_inj_l in Heq. subst k'.
      apply Hnot. unfold keys. apply (in_map fst) in Hin. exact Hin.
    + intros Heq. cbv [String.append] in Heq. discriminate Heq.
  - intros live live'. apply option_differences_one_sided.
  - intros e p Hs Hl Hm.
    unfold main, init, present, enable, update_plugin, enable_plugin,
      install_plugin, get_existing_plugin.
    unfold_primitives. simpl. rewrite Hl.
    destruct Hs as [Hs|Hs]; rewrite Hs; simpl;
      (erewrite has_different_config_matching by (simpl; eauto));
      destruct (truthy (items (plugin_options (parameters client)))); simpl;
      repeat (step; simpl);
      intros c Hin; each_member Hin.
  - intros e. unfold_manager. simpl.
    repeat (step; simpl).
    all: intros p' options Hin;
      repeat (destruct Hin as [Heq|Hin]; [try discriminate Heq|]);
      try (destruct Hin).
    all: inversion Heq; reflexivity.
Qed.

(** * Further properties *)

(** Replaces the run a fact is about by its value. *)
Ltac evaluate_run H :=
  unfold Engine.run in H;
  repeat match type of H with
         | context [main ?g ?r ?c ?e] =>
             let run := fresh "run" in
             let Hrun := fresh "Hrun" in
             remember (main g r c e) as run eqn:Hrun in H;
             vm_compute in Hrun; subst run
         end;
  cbv beta iota zeta in H.

Lemma check_mode_only_lookups_witness :
  mutating (Call (Get "loki") None) = false.
Proof.
  pose proof (@check_mode_only_lookups
                _ Engine.gateway Engine.repr (task state_absent [] true)
                (Engine.holding (Some loki)) eq_refl) as H.
  evaluate_run H. exact (H _ (or_introl eq_refl)).
Defined.

Lemma check_mode_present_reports_install_witness :
  calls [Call (Get "loki") None] = [Get "loki"] /\
  exists r,
    exit_json
      {| changed := true;
         actions := Some ["Installed local docker logging plugin loki from grafana/loki-docker-driver:latest."];
         results_diff := Some (BeforeAfter None) |} = exit_json r /\
    changed r = true /\
    actions r = Some ["Installed local docker logging plugin loki from grafana/loki-docker-driver:latest."].
Proof.
  pose proof (@check_mode_present_reports_install
                _ Engine.gateway Engine.repr (task state_present [] true)
                (Engine.holding None) eq_refl eq_refl eq_refl) as H.
  evaluate_run H. exact H.
Defined.


Section CodecMore.

Lemma has_char_eq_app (k v : string) : has_char "=" (k ++ "=" ++ v) = true.
Proof.
  induction k as [|c k IH]; [reflexivity|].
  change (String c k ++ "=" ++ v) with (String c (k ++ "=" ++ v)).
  cbn [has_char]. rewrite IH. apply orb_true_r.
Qed.

Lemma prepare_options_entries (o : option (dict value)) (x : string) :
  In x (prepare_options o) -> has_char "=" x = true.
Proof.
  destruct o as [m|]; [|intros []].
  rewrite prepare_options_map. intros H. apply in_map_iff in H.
  destruct H as (kv & <- & _). apply has_char_eq_app.
Qed.

Lemma keys_dict_set_in V (d : dict V) (k k' : string) (v : V) :
  In k' (keys (dict_set k v d)) <-> k' = k \/ In k' (keys d).
Proof.
  induction d as [|[k0 v0] d IH]; simpl.
  - intuition congruence.
  - destruct (String.eqb_spec k0 k) as [->|Hne]; simpl.
    + intuition congruence.
    + rewrite IH. intuition congruence.
Qed.

Lemma dict_set_nodup V (d : dict V) (k : string) (v : V) :
  NoDup (keys d) -> NoDup (keys (dict_set k v d)).
Proof.
  induction d as [|[k0 v0] d IH]; simpl; intros H.
  - repeat constructor. intros [].
  - destruct (String.eqb_spec k0 k) as [->|Hne]; simpl; [exact H|].
    inversion H as [|? ? Hn Hd]; subst. constructor; [|apply IH, Hd].
    intros Hin. apply keys_dict_set_in in Hin.
    destruct Hin as [->|Hin]; [apply Hne; reflexivity|contradiction].
Qed.

Lemma dict_set_values (d : dict value) (k : string) (v : value) :
  (forall k' v', In (k', v') d -> v' <> None) -> v <> None ->
  forall k' v', In (k', v') (dict_set k v d) -> v' <> None.
Proof.
  induction d as [|[k0 v0] d IH]; simpl; intros Hd Hv k' v' Hin.
  - destruct Hin as [Heq|[]]. inversion Heq. subst. exact Hv.
  - destruct (String.eqb k0 k); simpl in Hin.
    + destruct Hin as [Heq|Hin]; [inversion Heq; subst; exact Hv|].
      apply (Hd k' v'). right. exact Hin.
    + destruct Hin as [Heq|Hin]; [apply (Hd k' v'); left; exact Heq|].
      apply (IH (fun a b H => Hd a b (or_intror H)) Hv k' v' Hin).
Qed.

Lemma dict_of_entries_well_formed (l : list string) :
  forall acc d,
    NoDup (keys acc) -> (forall k v, In (k, v) acc -> v <> None) ->
    dict_of_entries l acc = Ok d ->
    NoDup (keys d) /\ forall k v, In (k, v) d -> v <> None.
Proof.
  induction l as [|x l IH]; simpl; intros acc d Hnd Hv H.
  - inversion H. subst. auto.
  - destruct (unpack2 (split_eq_1 x)) as [[k v]|e]; [|discriminate].
    apply (IH _ _ (@dict_set_nodup _ _ k (Some v) Hnd)) in H; [exact H|].
    apply dict_set_values; [exact Hv|discriminate].
Qed.

Lemma dict_of_entries_app (l1 l2 : list string) :
  forall acc,
    dict_of_entries (l1 ++ l2) acc =
    match dict_of_entries l1 acc with
    | Ok d1 => dict_of_entries l2 d1
    | Raise e => Raise e
    end.
Proof.
  induction l1 as [|x l1 IH]; simpl; intros acc; [reflexivity|].
  destruct (unpack2 (split_eq_1 x)) as [[k v]|e]; [apply IH|reflexivity].
Qed.

Lemma dict_of_entries_other_keys (l : list string) (k : string) :
  has_char "=" k = false ->
  (forall v, ~ In (k ++ "=" ++ v) l) ->
  forall acc d,
    dict_of_entries l acc = Ok d -> dict_lookup d k = dict_lookup acc k.
Proof.
  intros Hk. induction l as [|x l IH]; simpl; intros Hl acc d H.
  - inversion H. reflexivity.
  - destruct (has_char "=" x) eqn:Hx.
    + destruct (split_with_eq x Hx) as (k' & v' & -> & Hk').
      pose proof (split_at_first_eq k' v' Hk') as Hs. simpl in Hs.
      simpl in H. rewrite Hs in H. simpl in H.
      rewrite (IH (fun v Hin => Hl v (or_intror Hin)) _ _ H).
      rewrite dict_lookup_set.
      destruct (String.eqb_spec k' k) as [->|Hne]; [|reflexivity].
      exfalso. apply (Hl v'). left. reflexivity.
    + rewrite (split_without_eq x Hx) in H. discriminate.
Qed.

Lemma dict_of_entries_keys (l : list string) :
  forall acc d,
    (forall k, In k (keys acc) -> has_char "=" k = false) ->
    dict_of_entries l acc = Ok d ->
    forall k, In k (keys d) -> has_char "=" k = false.
Proof.
  induction l as [|x l IH]; simpl; intros acc d Hacc H.
  - inversion H. subst. exact Hacc.
  - destruct (has_char "=" x) eqn:Hx.
    + destruct (split_with_eq x Hx) as (k' & v' & -> & Hk').
      pose proof (split_at_first_eq k' v' Hk') as Hs. simpl in Hs.
      rewrite Hs in H. simpl in H.
      apply (IH (dict_set k' (Some v') acc) d); [|exact H].
      intros k Hin. apply keys_dict_set_in in Hin.
      destruct Hin as [->|Hin]; [exact Hk'|apply Hacc, Hin].
    + rewrite (split_without_eq x Hx) in H. discriminate.
Qed.

Lemma dict_of_entries_stored (m : dict value) :
  forall acc,
    NoDup (keys acc ++ keys m) ->
    (forall k, In k (keys m) -> has_char "=" k = false) ->
    dict_of_entries
      (map (fun kv => fst kv ++ "=" ++
                      match snd kv with Some v => v | None => "" end) m)
      acc = Ok (acc ++ map stored m)%list.
Proof.
  induction m as [|[k v] m IH]; simpl; intros acc Hnd H.
  - rewrite app_nil_r. reflexivity.
  - pose proof (split_at_first_eq k
                  (match v with Some s => s | None => "" end)
                  (H k (or_introl eq_refl))) as Hs.
    simpl in Hs. rewrite Hs. simpl.
    rewrite dict_set_new.
    + rewrite IH.
      * rewrite <- app_assoc. reflexivity.
      * unfold keys in *. rewrite map_app, <- app_assoc. exact Hnd.
      * intros; apply H; auto.
    + apply NoDup_remove_2 in Hnd. intros Hin. apply Hnd.
      apply in_or_app. auto.
Qed.

End CodecMore.

(** X1. Whatever the mapping (keys holding ['='], [None] values), decoding
    its encoding does not raise. *)
Theorem parse_of_prepare_never_raises (o : option (dict value)) :
  exists d, parse_options (Some (prepare_options o)) = Ok d.
Proof.
  destruct (prepare_options o) as [|x l] eqn:Hl; [exists []; reflexivity|].
  destruct (dict_of_entries_ok (x :: l) []) as (pairs & _ & Heq).
  - intros y Hy. rewrite <- Hl in Hy.
    apply (prepare_options_entries _ _ Hy).
  - eexists. exact Heq.
Qed.

(** X2. For distinct keys without ['='], decoding the encoding gives the
    mapping back with every [None] value read as the empty string. *)
Theorem parse_prepare_stores_none_as_empty (m : dict value) :
  NoDup (keys m) ->
  (forall k, In k (keys m) -> has_char "=" k = false) ->
  parse_options (Some (prepare_options (Some m))) = Ok (map stored m).
Proof.
  intros Hnd H. rewrite prepare_options_map.
  pose proof (dict_of_entries_stored m [] Hnd H) as Heq. simpl in Heq.
  destruct m as [|kv m]; [reflexivity|exact Heq].
Qed.

Lemma parse_prepare_stores_none_as_empty_witness :
  parse_options
    (Some (prepare_options (Some [("LOG_LEVEL", None);
                                  ("URL", Some "http://h")]))) =
  Ok [("LOG_LEVEL", Some ""); ("URL", Some "http://h")].
Proof.
  apply (@parse_prepare_stores_none_as_empty
           [("LOG_LEVEL", None); ("URL", Some "http://h")]).
  - repeat constructor; simpl; intuition discriminate.
  - simpl. intros k [<-|[<-|[]]]; reflexivity.
Defined.

(** X3. A decoded mapping has distinct keys, none of which holds ['='], and
    string values. *)
Theorem parse_options_well_formed
    (options_list : option (list string)) (d : dict value) :
  parse_options options_list = Ok d ->
  NoDup (keys d) /\
  (forall k, In k (keys d) -> has_char "=" k = false) /\
  (forall k v, In (k, v) d -> v <> None).
Proof.
  destruct options_list as [[|x l]|];
    [intros H; inversion H; subst; repeat split;
       [constructor|intros k []|intros k v []]
    | |intros H; inversion H; subst; repeat split;
       [constructor|intros k []|intros k v []]].
  change (parse_options (Some (x :: l))) with (dict_of_entries (x :: l) []).
  intros H. split; [|split].
  - eapply dict_of_entries_well_formed in H; [apply H|constructor|].
    intros k v [].
  - eapply dict_of_entries_keys; [|exact H]. intros k [].
  - eapply dict_of_entries_well_formed in H; [apply H|constructor|].
    intros k v [].
Qed.

Lemma parse_options_well_formed_witness :
  let d := [("A", Some "2"); ("B", Some "x=y")] in
  NoDup (keys d) /\
  (forall k, In k (keys d) -> has_char "=" k = false) /\
  (forall k v, In (k, v) d -> v <> None).
Proof.
  exact (@parse_options_well_formed (Some ["A=1"; "B=x=y"; "A=2"]) _ eq_refl).
Defined.

(** X4. When an option list decodes, a key is bound to the value of the
    last entry that carries it. *)
Theorem parse_options_last_entry_wins
    (l1 l2 : list string) (k v : string) (d : dict value) :
  has_char "=" k = false ->
  (forall v', ~ In (k ++ "=" ++ v') l2) ->
  parse_options (Some (l1 ++ (k ++ "=" ++ v)%string :: l2)%list) = Ok d ->
  dict_lookup d k = Some (Some v).
Proof.
  intros Hk Hl2 H.
  assert (H' : dict_of_entries (l1 ++ (k ++ "=" ++ v)%string :: l2)%list []
               = Ok d).
  { destruct l1; exact H. }
  clear H. rewrite dict_of_entries_app in H'.
  destruct (dict_of_entries l1 []) as [d1|e]; [|discriminate].
  pose proof (split_at_first_eq k v Hk) as Hs.
  cbn [dict_of_entries] in H'. rewrite Hs in H'. cbn [unpack2] in H'.
  rewrite (@dict_of_entries_other_keys l2 k Hk Hl2 _ _ H').
  rewrite dict_lookup_set, String.eqb_refl. reflexivity.
Qed.

Lemma parse_options_last_entry_wins_witness :
  dict_lookup [("A", Some "2"); ("B", Some "x")] "A" = Some (Some "2").
Proof.
  apply (@parse_options_last_entry_wins ["A=1"; "B=x"] [] "A" "2");
    [reflexivity|intros v' []|reflexivity].
Defined.



(** X5. On an existing plugin whose live settings decode,
    [has_different_config] returns no record - so that the update path is
    not taken - if and only if there is no desired option, or the live
    settings are not empty and every desired option reads in them, through
    [get], as the desired value. *)
Theorem differences_empty_iff E client (m m' : manager E) p live ds :
  existing_plugin m = Some p ->
  parse_options (Some (settings_Env p)) = Ok live ->
  has_different_config client m = (Return ds, m') ->
  (ds = [] <->
   items (plugin_options (parameters client)) = [] \/
   (live <> [] /\
    forall k v, In (k, v) (items (plugin_options (parameters client))) ->
                dict_get live k = v)).
Proof.
  intros Hp Hlive. unfold has_different_config. unfold_primitives. simpl.
  destruct (plugin_options (parameters client)) as [[|kv d]|]; simpl.
  1, 3: intros H; inversion H; tauto.
  rewrite Hp, Hlive. simpl. destruct live as [|x live]; simpl.
  - intros H; inversion H. split; [discriminate|].
    intros [Hd|[Hl _]]; [discriminate|contradiction].
  - intros H; inversion H. clear H. split.
    + intros Hnil. right. split; [discriminate|].
      intros k v Hin.
      destruct (value_eqb (dict_get (x :: live) k) v) eqn:Hv;
        [apply value_eqb_eq, Hv|].
      exfalso.
      assert (Hr : In {| DifferenceTracker.name := "plugin_options." ++ k;
                         DifferenceTracker.parameter :=
                           DifferenceTracker.of_value v;
                         DifferenceTracker.active :=
                           DifferenceTracker.of_value
                             (dict_get (x :: live) k) |}
                      (option_differences (kv :: d) (x :: live))).
      { apply option_differences_records. exists k, v.
        repeat split; [exact Hin|].
        intros Heq. apply value_eqb_eq in Heq. congruence. }
      rewrite Hnil in Hr. destruct Hr.
    + intros [Hd|[_ Hall]]; [discriminate|].
      destruct (option_differences (kv :: d) (x :: live)) as [|r l] eqn:Hds;
        [reflexivity|].
      assert (Hr : In r (option_differences (kv :: d) (x :: live)))
        by (rewrite Hds; left; reflexivity).
      apply option_differences_records in Hr.
      destruct Hr as (k & v & Hin & Hne & _). exfalso. apply Hne.
      apply Hall, Hin.
Qed.

Lemma differences_empty_iff_witness :
  (@nil DifferenceTracker.difference) = [] <->
  items (Some [("LOG_LEVEL", Some "INFO")]) = [] \/
  ([("LOG_LEVEL", Some "INFO")] <> [] /\
   forall k v,
     In (k, v) (items (Some [("LOG_LEVEL", Some "INFO")])) ->
     dict_get [("LOG_LEVEL", Some "INFO")] k = v).
Proof.
  exact (@differences_empty_iff _ (task state_present [("LOG_LEVEL", Some "INFO")]
                                   false)
           (manager_holding loki) _ loki _ _ eq_refl eq_refl eq_refl).
Defined.



(** X9. With [state: present], when the lookup finds a plugin whose live
    settings hold every desired option with the desired value, the run makes
    this one lookup and no other call, and ends with [changed = false]
    (also for a disabled plugin, and in check mode). *)
Theorem present_and_matching_is_noop E (gw : Gateway E) repr client e p :
  state (parameters client) = state_present ->
  let a := alias (parameters client) in
  let r1 := plugins_get gw a e in
  fst r1 = Found p ->
  settings_match (plugin_options (parameters client)) (settings_Env p) ->
  exists r tr,
    main gw repr client e = (exit_json r, snd r1, tr) /\
    calls tr = [Get a] /\ changed r = false.
Proof.
  intros Hs a r1 H1 Hm. subst a r1.
  unfold main, init, present, install_plugin, get_existing_plugin.
  unfold_primitives. simpl. rewrite Hs, H1. simpl.
  erewrite has_different_config_matching by (simpl; eauto).
  destruct (truthy (items (plugin_options (parameters client)))); simpl;
    repeat (step; simpl); eauto.
Qed.

Lemma present_and_matching_is_noop_witness :
  exists r tr,
    Engine.run (task state_present [("LOG_LEVEL", Some "INFO")] false)
               (Engine.holding (Some loki)) =
    (exit_json r, Engine.holding (Some loki), tr) /\
    calls tr = [Get "loki"] /\ changed r = false.
Proof.
  apply (@present_and_matching_is_noop
           _ Engine.gateway Engine.repr
           (task state_present [("LOG_LEVEL", Some "INFO")] false)
           (Engine.holding (Some loki)) loki);
    try reflexivity.
  intros k v [H|[]]. inversion H. subst k v.
  exists [("LOG_LEVEL", Some "INFO")]. split; reflexivity.
Defined.

(** X12. With [state: disabled] the run never installs, removes,
    configures or enables. It calls [disable] exactly when the lookup finds
    an enabled plugin and check mode is off; it reports [changed = true]
    exactly when the lookup finds an enabled plugin, and is a no-op when the
    plugin is missing or disabled already. *)
Theorem disabled_only_disables E (gw : Gateway E) repr client e :
  state (parameters client) = state_disabled ->
  let a := alias (parameters client) in
  let r1 := plugins_get gw a e in
  let '(ex, _, tr) := main gw repr client e in
  match fst r1 with
  | Found p =>
      if enabled p
      then if check_mode client
           then calls tr = [Get a] /\
                exists r, ex = exit_json r /\ changed r = true
           else calls tr = [Get a; Disable p] /\
                match fst (plugin_disable gw p (snd r1)) with
                | Done _ => exists r, ex = exit_json r /\ changed r = true
                | APIError _ => exists msg, ex = fail_json msg
                end
      else calls tr = [Get a] /\
           exists r, ex = exit_json r /\ changed r = false
  | NotFound =>
      calls tr = [Get a] /\ exists r, ex = exit_json r /\ changed r = false
  | LookupAPIError _ => exists msg, ex = fail_json msg
  end.
Proof.
  intros Hs. unfold_manager. simpl. rewrite Hs. simpl.
  repeat (step; simpl); simpl in *; try discriminate; eauto.
Qed.

Lemma disabled_only_disables_witness :
  calls [Call (Get "loki") None; Inspect AttrEnabled;
         Call (Disable loki) None] = [Get "loki"; Disable loki] /\
  exists r,
    exit_json {| changed := true; 
                 actions := Some ["Disabled local docker logging plugin loki."];
                 results_diff := None |} = exit_json r /\
    changed r = true.
Proof.
  pose proof (@disabled_only_disables
                _ Engine.gateway Engine.repr (task state_disabled [] false)
                (Engine.holding (Some loki)) eq_refl) as H.
  evaluate_run H. exact H.
Defined.

(** X10. With [state: present] outside check mode, when the lookup finds
    no plugin, the run makes exactly one more call, [install] with the name
    and the alias - and no [configure], whatever options are desired - and
    ends with [changed = true] if it succeeds, with [fail_json] if not. *)
Theorem present_installs_once E (gw : Gateway E) repr client e :
  state (parameters client) = state_present ->
  check_mode client = false ->
  let a := alias (parameters client) in
  let n := name (parameters client) in
  let r1 := plugins_get gw a e in
  fst r1 = NotFound ->
  let '(ex, _, tr) := main gw repr client e in
  calls tr = [Get a; Install n a] /\
  match fst (plugins_install gw n a (snd r1)) with
  | Done _ => exists r, ex = exit_json r /\ changed r = true
  | APIError _ => exists msg, ex = fail_json msg
  end.
Proof.
  intros Hs Hc a n r1 H1. subst a n r1.
  unfold_manager. simpl. rewrite Hs, Hc, H1. simpl.
  repeat (step; simpl); simpl in *; try discriminate; eauto.
Qed.

Lemma present_installs_once_witness :
  calls [Call (Get "loki") None;
         Call (Install (Some "grafana/loki-docker-driver:latest") "loki")
              None] =
  [Get "loki"; Install (Some "grafana/loki-docker-driver:latest") "loki"] /\
  exists r,
    exit_json {| changed := true; actions := None; results_diff := None |} =
    exit_json r /\ changed r = true.
Proof.
  pose proof (@present_installs_once
                _ Engine.gateway Engine.repr
                (task state_present [("LOG_LEVEL", Some "DEBUG")] false)
                (Engine.holding None) eq_refl eq_refl eq_refl) as H.
  evaluate_run H. exact H.
Defined.

(** X11. With [state: enabled] outside check mode, when the lookup finds
    no plugin, the install succeeds, the second lookup finds the plugin
    disabled and [enable] succeeds: the calls are lookup, install, lookup,
    enable with timeout 1, in this order, [changed] is true, and two actions
    are logged, which the result keeps only in debug mode. *)
Theorem enabled_installs_then_enables
    E (gw : Gateway E) repr client e p1 q q' :
  state (parameters client) = state_enabled ->
  check_mode client = false ->
  let a := alias (parameters client) in
  let n := name (parameters client) in
  let r1 := plugins_get gw a e in
  let r2 := plugins_install gw n a (snd r1) in
  let r3 := plugins_get gw a (snd r2) in
  let r4 := plugin_enable gw q 1 (snd r3) in
  fst r1 = NotFound -> fst r2 = Done p1 ->
  fst r3 = Found q -> enabled q = false -> fst r4 = Done q' ->
  exists r tr,
    main gw repr client e = (exit_json r, snd r4, tr) /\
    calls tr = [Get a; Install n a; Get a; Enable q 1] /\
    changed r = true /\
    actions r =
    if debug (parameters client)
    then Some ["Installed local docker logging plugin " ++ a ++ " from "
               ++ str_of n ++ ".";
               "Enabled local docker logging plugin " ++ a ++ "."]
    else None.
Proof.
  intros Hs Hc a n r1 r2 r3 r4 H1 H2 H3 Hq H4. subst a n r1 r2 r3 r4.
  unfold_manager. simpl. rewrite Hs, Hc, H1. simpl.
  rewrite H2. simpl. rewrite H3. simpl. rewrite Hq. simpl.
  rewrite H4. simpl.
  destruct (debug (parameters client)); rewrite ?orb_true_r, ?orb_false_r;
    simpl; repeat (step; simpl); do 2 eexists; repeat split.
Qed.

Lemma enabled_installs_then_enables_witness :
  let installed :=
    {| plugin_name := "loki"; enabled := false; settings_Env := [] |} in
  exists r tr,
    Engine.run (task state_enabled [] false) (Engine.holding None) =
    (exit_json r,
     Engine.holding (Some {| plugin_name := "loki"; enabled := true;
                             settings_Env := [] |}),
     tr) /\
    calls tr = [Get "loki";
                Install (Some "grafana/loki-docker-driver:latest") "loki";
                Get "loki"; Enable installed 1] /\
    changed r = true /\ actions r = None.
Proof.
  intros installed.
  apply (@enabled_installs_then_enables
           _ Engine.gateway Engine.repr (task state_enabled [] false)
           (Engine.holding None) installed installed
           {| plugin_name := "loki"; enabled := true; settings_Env := [] |});
    reflexivity.
Defined.

(** X13. Outside check mode, a run that ends with a result reports
    [changed = true] if and only if it made a gateway call other than a
    lookup. *)
Theorem changed_iff_mutating_call E (gw : Gateway E) repr client e :
  check_mode client = false ->
  let '(ex, _, tr) := main gw repr client e in
  forall r, ex = exit_json r -> changed r = existsb mutating tr.
Proof.
  intros Hc. unfold_manager. simpl. rewrite Hc. simpl.
  repeat (step; simpl).
  all: intros r Hr; try discriminate Hr; inversion Hr; reflexivity.
Qed.

Lemma changed_iff_mutating_call_witness :
  true = existsb mutating [Call (Get "loki") None; Inspect AttrEnabled;
                           Call (Disable loki) None].
Proof.
  pose proof (@changed_iff_mutating_call
                _ Engine.gateway Engine.repr (task state_disabled [] false)
                (Engine.holding (Some loki)) eq_refl) as H.
  evaluate_run H. exact (H _ eq_refl).
Defined.

(** X14. When the result keeps its actions, [changed] is true if and only
    if an action was logged, and at most two actions are logged. *)
Theorem changed_iff_action_logged E (gw : Gateway E) repr client e :
  let '(ex, _, _) := main gw repr client e in
  forall r l,
    ex = exit_json r -> actions r = Some l ->
    changed r = truthy l /\ length l <= 2.
Proof.
  unfold_manager. simpl.
  repeat (step; simpl).
  all: intros r l Hr; try discriminate Hr; inversion Hr; subst r; clear Hr;
    simpl; intros Hl; try discriminate Hl; inversion Hl; subst l; simpl;
    (split; [reflexivity|repeat constructor]).
Qed.

Lemma changed_iff_action_logged_witness :
  true = truthy ["Removed local docker logging plugin loki."] /\
  length ["Removed local docker logging plugin loki."] <= 2.
Proof.
  pose proof (@changed_iff_action_logged
                _ Engine.gateway Engine.repr (task state_absent [] true)
                (Engine.holding (Some loki))) as H.
  evaluate_run H. exact (H _ _ eq_refl eq_refl).
Defined.

(** X15. A run ends with [fail_json] only when its last gateway call raised
    an [APIError], and the message is the one [wrap_error] builds for that
    call and that error. *)
Theorem fail_json_only_after_api_error E (gw : Gateway E) repr client e :
  let '(ex, _, tr) := main gw repr client e in
  forall msg,
    ex = fail_json msg ->
    exists tr0 c error,
      tr = (tr0 ++ [Call c (Some error)])%list /\
      msg = wrap_error repr (failure_prefix (parameters client) c) error.
Proof.
  unfold_manager. simpl.
  repeat (step; simpl).
  all: intros msg Hm; try discriminate Hm; inversion Hm; subst msg; clear Hm.
  all: match goal with
       | |- exists tr0 c error, ?tr = _ /\ _ =>
           exists (removelast tr); simpl; do 2 eexists;
           split; reflexivity
       end.
Qed.

Lemma fail_json_only_after_api_error_witness :
  exists tr0 c error,
    [Call (Get "loki") (Some "boom")] =
    (tr0 ++ [Call c (Some error)])%list /\
    "Failed to query existing plugins. boom" =
    wrap_error Engine.repr
      (failure_prefix (parameters (task state_present [] false)) c) error.
Proof.
  pose proof (@fail_json_only_after_api_error
                _ Engine.gateway Engine.repr (task state_present [] false)
                (failing Engine.OpGet "boom")) as H.
  evaluate_run H. exact (H _ eq_refl).
Defined.

Lemma parse_options_raises_value_error
      (options_list : option (list string)) (x : exn) :
  parse_options options_list = Raise x -> x = ValueError.
Proof.
  destruct options_list as [[|y l]|]; try discriminate.
  change (parse_options (Some (y :: l))) with (dict_of_entries (y :: l) []).
  intros H. apply dict_of_entries_raise in H. tauto.
Qed.

(** X16. The exceptions a run can die of. A [KeyError] never escapes (the
    [actions] key is there whenever it is appended to or popped). A
    [ValueError] escapes only from decoding the live settings of the plugin
    found by the first lookup, with desired options given, before any other
    call. An [AttributeError] escapes only with [state: enabled], right
    after a lookup of the enable path that found no plugin. *)
Theorem tracebacks_of_a_run E (gw : Gateway E) repr client e :
  let a := alias (parameters client) in
  let r1 := plugins_get gw a e in
  let '(ex, _, tr) := main gw repr client e in
  forall x,
    ex = traceback x ->
    match x with
    | KeyError => False
    | ValueError =>
        items (plugin_options (parameters client)) <> [] /\
        tr = [Call (Get a) None; Inspect AttrSettings] /\
        exists p,
          fst r1 = Found p /\
          parse_options (Some (settings_Env p)) = Raise ValueError
    | AttributeError =>
        state (parameters client) = state_enabled /\
        exists tr0,
          tr = (tr0 ++ [Call (Get a) None; Inspect AttrEnabled])%list
    end.
Proof.
  unfold_manager. simpl.
  repeat (step; simpl).
  all: intros x Hx; try discriminate Hx; inversion Hx; subst x; clear Hx.
  all: try match goal with
           | H : parse_options _ = Raise ?x |- _ =>
               pose proof (parse_options_raises_value_error _ H); subst x
           end.
  all: simpl; (split; [first [reflexivity|discriminate]|]).
  all: first [ split; [reflexivity|eexists; split; [reflexivity|assumption]]
             | match goal with
               | |- exists tr0, ?tr = (tr0 ++ _)%list =>
                   exists (removelast (removelast tr)); reflexivity
               end ].
Qed.

Lemma tracebacks_of_a_run_witness :
  state_enabled = state_enabled /\
  exists tr0,
    [Call (Get "loki") None; Call (Get "loki") None; Inspect AttrEnabled] =
    (tr0 ++ [Call (Get "loki") None; Inspect AttrEnabled])%list.
Proof.
  pose proof (@tracebacks_of_a_run
                _ Engine.gateway Engine.repr (task state_enabled [] true)
                (Engine.holding None)) as H.
  evaluate_run H. exact (H _ eq_refl).
Defined.

(** X17. With [state: present] or [state: enabled], desired options given
    and a plugin found whose live settings hold an entry without ['='], the
    run dies of a [ValueError] right after reading the settings, without any
    mutating call. *)
Theorem malformed_live_settings_raise E (gw : Gateway E) repr client e p :
  state (parameters client) = state_present \/
  state (parameters client) = state_enabled ->
  let a := alias (parameters client) in
  let r1 := plugins_get gw a e in
  fst r1 = Found p ->
  items (plugin_options (parameters client)) <> [] ->
  (exists x, In x (settings_Env p) /\ has_char "=" x = false) ->
  main gw repr client e =
  (traceback ValueError, snd r1,
   [Call (Get a) None; Inspect AttrSettings]).
Proof.
  intros Hs a r1 H1 Hd Hx. subst a r1.
  assert (Hp : parse_options (Some (settings_Env p)) = Raise ValueError).
  { destruct (settings_Env p) as [|y l] eqn:Henv;
      [destruct Hx as (x & [] & _)|].
    apply (dict_of_entries_malformed (y :: l) []). exact Hx. }
  unfold main, init, present, enable, has_different_config,
    get_existing_plugin.
  unfold_primitives. simpl. rewrite H1.
  destruct (plugin_options (parameters client)) as [[|kv d]|];
    try (exfalso; apply Hd; reflexivity).
  destruct Hs as [Hs|Hs]; rewrite Hs; simpl; rewrite Hp; reflexivity.
Qed.

Lemma malformed_live_settings_raise_witness :
  let broken := {| plugin_name := "loki"; enabled := true;
                   settings_Env := ["LOG_LEVEL=INFO"; "garbage"] |} in
  Engine.run (task state_present [("LOG_LEVEL", Some "INFO")] false)
             (Engine.holding (Some broken)) =
  (traceback ValueError, Engine.holding (Some broken),
   [Call (Get "loki") None; Inspect AttrSettings]).
Proof.
  intros broken.
  apply (@malformed_live_settings_raise
           _ Engine.gateway Engine.repr
           (task state_present [("LOG_LEVEL", Some "INFO")] false)
           (Engine.holding (Some broken)) broken).
  - left. reflexivity.
  - reflexivity.
  - discriminate.
  - exists "garbage". split; [right; left; reflexivity|reflexivity].
Defined.

(** X18. When the first lookup finds a plugin, the image name plays no
    part: the run is the same under any other name. *)
Theorem name_only_used_to_install
    E (gw : Gateway E) repr client e p (n : value) :
  fst (plugins_get gw (alias (parameters client)) e) = Found p ->
  main gw repr (with_name n client) e = main gw repr client e.
Proof.
  intros H1. unfold with_name. unfold_manager. simpl. rewrite H1. simpl.
  repeat (step; simpl); reflexivity.
Qed.

Lemma name_only_used_to_install_witness :
  Engine.run (with_name None (task state_enabled [] false))
             (Engine.holding (Some loki)) =
  Engine.run (task state_enabled [] false) (Engine.holding (Some loki)).
Proof.
  exact (@name_only_used_to_install
           _ Engine.gateway Engine.repr (task state_enabled [] false)
           (Engine.holding (Some loki)) loki None eq_refl).
Defined.

Ltac reduce :=
  lazy -[parse_options prepare_options option_differences String.append
         String.eqb Engine.set_env fold_left
         DifferenceTracker.get_before_after].

(** X20. On the reference engine, without faults and outside check mode, a
    run that ends with a result leaves the engine in the target state:
    no plugin for [absent], a plugin for [present], an enabled plugin for
    [enabled], no enabled plugin for [disabled]. *)
Theorem run_reaches_target_state client (held : option plugin) :
  check_mode client = false ->
  let a := alias (parameters client) in
  (forall p, held = Some p -> plugin_name p = a) ->
  let '(ex, e', _) := Engine.run client (Engine.holding held) in
  forall r,
    ex = exit_json r ->
    match state (parameters client) with
    | state_absent => Engine.installed e' = None
    | state_present => exists q, Engine.installed e' = Some q
    | state_enabled =>
        exists q, Engine.installed e' = Some q /\ enabled q = true
    | state_disabled =>
        forall q, Engine.installed e' = Some q -> enabled q = false
    end.
Proof.
  destruct client as [[n al o st dbg] chk df]. simpl.
  intros Hc Hheld. subst chk. unfold Engine.run. unfold_manager.
  destruct held as [[pn pe env]|].
  - rewrite <- (Hheld _ eq_refl). clear Hheld. simpl plugin_name.
    destruct pe, st; reduce; rewrite ?String.eqb_refl;
      repeat (step; reduce; rewrite ?String.eqb_refl; reduce);
      intros r Hr; try discriminate Hr;
      try reflexivity; try (eexists; split; reflexivity);
      try (eexists; reflexivity);
      try (intros q Hq; inversion Hq; reflexivity).
  - clear Hheld.
    destruct st; reduce; rewrite ?String.eqb_refl;
      repeat (step; reduce; rewrite ?String.eqb_refl; reduce);
      intros r Hr; try discriminate Hr;
      try reflexivity; try (eexists; split; reflexivity);
      try (eexists; reflexivity);
      try (intros q Hq; inversion Hq; reflexivity).
Qed.

Lemma run_reaches_target_state_witness :
  Engine.installed (Engine.holding None) = None.
Proof.
  assert (Hname : forall p, Some loki = Some p -> plugin_name p = "loki")
    by (intros p Hp; inversion Hp; reflexivity).
  pose proof (@run_reaches_target_state
                (task state_absent [] false) (Some loki) eq_refl Hname) as H.
  evaluate_run H. exact (H _ eq_refl).
Defined.

(** X21. On the reference engine, without faults, a check-mode run leaves
    the engine as it was, and when it ends with a result, the same task
    outside check mode ends with a result that has the same [changed]. *)
Theorem check_mode_predicts_changed client (held : option plugin) :
  (forall p, held = Some p -> plugin_name p = alias (parameters client)) ->
  let '(ex_c, e_c, _) :=
    Engine.run (with_check_mode true client) (Engine.holding held) in
  let '(ex_r, _, _) :=
    Engine.run (with_check_mode false client) (Engine.holding held) in
  e_c = Engine.holding held /\
  forall r,
    ex_c = exit_json r ->
    exists r', ex_r = exit_json r' /\ changed r' = changed r.
Proof.
  destruct client as [[n al o st dbg] chk df]. simpl.
  intros Hheld. unfold with_check_mode, Engine.run. unfold_manager.
  destruct held as [[pn pe env]|].
  - rewrite <- (Hheld _ eq_refl). clear Hheld. simpl plugin_name.
    destruct pe, st; reduce; rewrite ?String.eqb_refl;
      repeat (step; reduce; rewrite ?String.eqb_refl; reduce);
      (split; [reflexivity|]);
      intros r Hr; try discriminate Hr; inversion Hr;
      eexists; split; reflexivity.
  - clear Hheld.
    destruct st; reduce; rewrite ?String.eqb_refl;
      repeat (step; reduce; rewrite ?String.eqb_refl; reduce);
      (split; [reflexivity|]);
      intros r Hr; try discriminate Hr; inversion Hr;
      eexists; split; reflexivity.
Qed.

Lemma check_mode_predicts_changed_witness :
  exists r',
    exit_json
      {| changed := true;
         actions := Some ["Removed local docker logging plugin loki."];
         results_diff := None |} = exit_json r' /\
    changed r' = true.
Proof.
  assert (Hname : forall p, Some loki = Some p -> plugin_name p = "loki")
    by (intros p Hp; inversion Hp; reflexivity).
  pose proof (@check_mode_predicts_changed
                (task state_absent [] false) (Some loki) Hname) as H.
  evaluate_run H. exact (proj2 H _ eq_refl).
Defined.
